(** * Lane Runner: the simulation engine of [lane-runner/src/game/sim.ts]

    A shallow embedding of the class [LaneRunnerSim] and of the data it
    works on ([types.ts], [config.ts]), followed by the properties of the
    engine that the specification states.

    Numbers.  The class is embedded twice.  In the first embedding a
    TypeScript [number] is modelled by [JS.number]: an exact rational, or
    one of the three special values of IEEE arithmetic (+Infinity,
    -Infinity, NaN), with the arithmetic and the comparisons of ECMAScript
    on the special values; finite arithmetic is exact there, and the
    decimal literals of the source (0.05, 0.005, 0.6, ...) denote the
    decimal fractions themselves.  It carries the properties that hold
    with a margin that rounding does not reach.  In the second embedding,
    the module [F64], a [number] is a binary64 value and every operation
    rounds as IEEE 754 has it; it carries the properties in which the
    rounded value itself decides: the pose clock, and the cooldown that a
    large magnitude absorbs.

    Effects.  [Math.random] is an explicit generator threaded through the
    functions that draw from it; the methods of the class are functions from
    the engine state to the engine state; the [while] loop of [update] is a
    recursion on a fuel argument and returns [None] when the fuel runs out. *)

From Stdlib Require Import QArith Qround Lqa Lia ZArith List Bool String SpecFloat.
Import ListNotations.

Open Scope Q_scope.

(* ================================================================== *)
(** ** ECMAScript numbers *)

Module JS.

Inductive number : Type :=
| Fin (q : Q)
| PosInf
| NegInf
| NaN.

(** [Number.isFinite] *)
Definition isFinite (a : number) : bool :=
  match a with Fin _ => true | _ => false end.

(** The sign of a number, as an integer in {-1, 0, 1}; NaN has none and
    is given 0, which the callers below never use. *)
Definition sgn (a : number) : Z :=
  match a with
  | Fin q => Z.sgn (Qnum q)
  | PosInf => 1%Z
  | NegInf => (-1)%Z
  | NaN => 0%Z
  end.

(** The infinity of a given sign; the sign 0 stands for the undefined
    forms (0 * Infinity, 0 / 0), which are NaN. *)
Definition inf_of_sign (s : Z) : number :=
  match s with
  | Z0 => NaN
  | Zpos _ => PosInf
  | Zneg _ => NegInf
  end.

Definition neg (a : number) : number :=
  match a with
  | Fin q => Fin (- q)
  | PosInf => NegInf
  | NegInf => PosInf
  | NaN => NaN
  end.

Definition add (a b : number) : number :=
  match a, b with
  | NaN, _ | _, NaN => NaN
  | Fin x, Fin y => Fin (x + y)
  | PosInf, NegInf | NegInf, PosInf => NaN
  | PosInf, _ | _, PosInf => PosInf
  | NegInf, _ | _, NegInf => NegInf
  end.

Definition sub (a b : number) : number := add a (neg b).

Definition mul (a b : number) : number :=
  match a, b with
  | NaN, _ | _, NaN => NaN
  | Fin x, Fin y => Fin (x * y)
  | _, _ => inf_of_sign (sgn a * sgn b)
  end.

Definition div (a b : number) : number :=
  match a, b with
  | NaN, _ | _, NaN => NaN
  | Fin x, Fin y =>
      if Qeq_bool y 0 then inf_of_sign (sgn a) else Fin (x / y)
  | Fin _, _ => Fin 0
  | _, Fin y =>
      if Qeq_bool y 0 then a else inf_of_sign (sgn a * sgn b)
  | _, _ => NaN
  end.

(** The comparison underlying [<], [<=], [>], [>=] and [===]: undefined
    as soon as one side is NaN. *)
Definition compare (a b : number) : option comparison :=
  match a, b with
  | NaN, _ | _, NaN => None
  | Fin x, Fin y => Some (x ?= y)
  | PosInf, PosInf | NegInf, NegInf => Some Eq
  | NegInf, _ | _, PosInf => Some Lt
  | PosInf, _ | _, NegInf => Some Gt
  end.

Definition lt (a b : number) : bool :=
  match compare a b with Some Lt => true | _ => false end.

Definition le (a b : number) : bool :=
  match compare a b with Some Lt | Some Eq => true | _ => false end.

Definition gt (a b : number) : bool :=
  match compare a b with Some Gt => true | _ => false end.

Definition ge (a b : number) : bool :=
  match compare a b with Some Gt | Some Eq => true | _ => false end.

(** [===] on numbers *)
Definition eqb (a b : number) : bool :=
  match compare a b with Some Eq => true | _ => false end.

(** [Math.max] and [Math.min] of two arguments: NaN as soon as one
    argument is NaN. *)
Definition max (a b : number) : number :=
  match compare a b with
  | None => NaN
  | Some Lt => b
  | Some _ => a
  end.

Definition min (a b : number) : number :=
  match compare a b with
  | None => NaN
  | Some Gt => b
  | Some _ => a
  end.

(** [Math.floor] *)
Definition floor (a : number) : number :=
  match a with
  | Fin q => Fin (inject_Z (Qfloor q))
  | _ => a
  end.

(** [Math.round]: the nearest integer, a tie going up. *)
Definition round (a : number) : number :=
  match a with
  | Fin q => Fin (inject_Z (Qfloor (q + (1 # 2))))
  | _ => a
  end.

(** Integers and decimal literals as numbers. *)
Definition ofZ (z : Z) : number := Fin (inject_Z z).

End JS.

Import JS.

Coercion Fin : Q >-> number.

(* ================================================================== *)
(** ** The data of [types.ts] and [config.ts] *)

Inductive DifficultyId : Type := easy | medium | hard.

Inductive ObstacleKind : Type := low | high.

Inductive PlayerPose : Type := normal | jumping | sliding.

Record DifficultyOption : Type := mkDifficulty {
  id : DifficultyId;
  name : string;
  initialSpeedPxPerSec : number;
  initialSpawnIntervalSec : number
}.

(** An obstacle identifier is the string [prefix_<random hex>_<clock hex>];
    it is kept as the prefix and the random draw it is printed from. *)
Record Obstacle : Type := mkObstacle {
  o_id : string * number;
  o_lane : number;
  o_kind : ObstacleKind;
  o_y : number;
  o_width : number;
  o_height : number
}.

Record GameOverStats : Type := mkStats {
  gs_score : number;
  timeSurvivedSec : number;
  gs_distancePx : number;
  difficultyId : DifficultyId
}.

Definition DIFFICULTIES : list DifficultyOption :=
  [ mkDifficulty easy "Easy" 220 1.35;
    mkDifficulty medium "Medium" 290 1.05;
    mkDifficulty hard "Hard" 370 0.85 ].

(* ================================================================== *)
(** ** [sim.ts]: helpers *)

Record Rect : Type := mkRect { rx : number; ry : number; rw : number; rh : number }.

Definition rectsOverlap (a b : Rect) : bool :=
  lt (rx a) (add (rx b) (rw b)) && gt (add (rx a) (rw a)) (rx b)
  && lt (ry a) (add (ry b) (rh b)) && gt (add (ry a) (rh a)) (ry b).

Definition clamp (n mn mx : number) : number := max mn (min mx n).

(** The ambient random generator: an infinite supply of draws and the
    position of the next one.  [Math.random] returns a draw and moves on. *)
Record Rng : Type := mkRng { draws : nat -> Q; cursor : nat }.

Definition Math_random (g : Rng) : number * Rng :=
  (Fin (draws g (cursor g)), mkRng (draws g) (S (cursor g))).

(** Every draw of [Math.random] lies in [0, 1). *)
Definition rng_ok (g : Rng) : Prop := forall i, 0 <= draws g i /\ draws g i < 1.

Definition makeId (prefix : string) (g : Rng) : (string * number) * Rng :=
  let (r, g) := Math_random g in ((prefix, r), g).

(** The lane count is a positive integer in the data model and is kept as
    an integer; where the source computes with it, it is the number
    [ofZ lanes]. *)
Record SimConfig : Type := mkConfig {
  cfg_difficulty : DifficultyOption;
  cfg_lanes : Z
}.

Record World : Type := mkWorld {
  width : number;
  height : number;
  roadX : number;
  roadW : number;
  car : Rect
}.

(* ================================================================== *)
(** ** [sim.ts]: the class [LaneRunnerSim] *)

Record LaneRunnerSim : Type := mkSim {
  lanes : Z;
  difficulty : DifficultyOption;
  timeSec : number;
  distancePx : number;
  score : number;
  lane : number;
  pose : PlayerPose;
  poseT : number;
  speedPxPerSec : number;
  spawnIntervalSec : number;
  spawnCooldownSec : number;
  crashed : bool;
  obstacles : list Obstacle
}.

(** Assignments to the fields that the methods write. *)
Definition set_timeSec (s : LaneRunnerSim) (v : number) : LaneRunnerSim :=
  mkSim (lanes s) (difficulty s) v (distancePx s) (score s) (lane s) (pose s)
        (poseT s) (speedPxPerSec s) (spawnIntervalSec s) (spawnCooldownSec s)
        (crashed s) (obstacles s).

Definition set_distancePx (s : LaneRunnerSim) (v : number) : LaneRunnerSim :=
  mkSim (lanes s) (difficulty s) (timeSec s) v (score s) (lane s) (pose s)
        (poseT s) (speedPxPerSec s) (spawnIntervalSec s) (spawnCooldownSec s)
        (crashed s) (obstacles s).

Definition set_score (s : LaneRunnerSim) (v : number) : LaneRunnerSim :=
  mkSim (lanes s) (difficulty s) (timeSec s) (distancePx s) v (lane s) (pose s)
        (poseT s) (speedPxPerSec s) (spawnIntervalSec s) (spawnCooldownSec s)
        (crashed s) (obstacles s).

Definition set_lane (s : LaneRunnerSim) (v : number) : LaneRunnerSim :=
  mkSim (lanes s) (difficulty s) (timeSec s) (distancePx s) (score s) v (pose s)
        (poseT s) (speedPxPerSec s) (spawnIntervalSec s) (spawnCooldownSec s)
        (crashed s) (obstacles s).

Definition set_pose (s : LaneRunnerSim) (v : PlayerPose) : LaneRunnerSim :=
  mkSim (lanes s) (difficulty s) (timeSec s) (distancePx s) (score s) (lane s) v
        (poseT s) (speedPxPerSec s) (spawnIntervalSec s) (spawnCooldownSec s)
        (crashed s) (obstacles s).

Definition set_poseT (s : LaneRunnerSim) (v : number) : LaneRunnerSim :=
  mkSim (lanes s) (difficulty s) (timeSec s) (distancePx s) (score s) (lane s)
        (pose s) v (speedPxPerSec s) (spawnIntervalSec s) (spawnCooldownSec s)
        (crashed s) (obstacles s).

Definition set_speedPxPerSec (s : LaneRunnerSim) (v : number) : LaneRunnerSim :=
  mkSim (lanes s) (difficulty s) (timeSec s) (distancePx s) (score s) (lane s)
        (pose s) (poseT s) v (spawnIntervalSec s) (spawnCooldownSec s)
        (crashed s) (obstacles s).

Definition set_spawnIntervalSec (s : LaneRunnerSim) (v : number) : LaneRunnerSim :=
  mkSim (lanes s) (difficulty s) (timeSec s) (distancePx s) (score s) (lane s)
        (pose s) (poseT s) (speedPxPerSec s) v (spawnCooldownSec s)
        (crashed s) (obstacles s).

Definition set_spawnCooldownSec (s : LaneRunnerSim) (v : number) : LaneRunnerSim :=
  mkSim (lanes s) (difficulty s) (timeSec s) (distancePx s) (score s) (lane s)
        (pose s) (poseT s) (speedPxPerSec s) (spawnIntervalSec s) v
        (crashed s) (obstacles s).

Definition set_crashed (s : LaneRunnerSim) (v : bool) : LaneRunnerSim :=
  mkSim (lanes s) (difficulty s) (timeSec s) (distancePx s) (score s) (lane s)
        (pose s) (poseT s) (speedPxPerSec s) (spawnIntervalSec s)
        (spawnCooldownSec s) v (obstacles s).

Definition set_obstacles (s : LaneRunnerSim) (v : list Obstacle) : LaneRunnerSim :=
  mkSim (lanes s) (difficulty s) (timeSec s) (distancePx s) (score s) (lane s)
        (pose s) (poseT s) (speedPxPerSec s) (spawnIntervalSec s)
        (spawnCooldownSec s) (crashed s) v.

Definition set_o_y (o : Obstacle) (v : number) : Obstacle :=
  mkObstacle (o_id o) (o_lane o) (o_kind o) v (o_width o) (o_height o).

(** The field initialisers and the constructor. *)
Definition new (cfg : SimConfig) : LaneRunnerSim :=
  {| lanes := cfg_lanes cfg;
     difficulty := cfg_difficulty cfg;
     timeSec := 0;
     distancePx := 0;
     score := 0;
     lane := 1;
     pose := normal;
     poseT := 0;
     speedPxPerSec := initialSpeedPxPerSec (cfg_difficulty cfg);
     spawnIntervalSec := initialSpawnIntervalSec (cfg_difficulty cfg);
     spawnCooldownSec := initialSpawnIntervalSec (cfg_difficulty cfg);
     crashed := false;
     obstacles := [] |}.

Record SimSnapshot : Type := mkSnapshot {
  snap_lane : number;
  snap_pose : PlayerPose;
  snap_poseT : number;
  snap_obstacles : list Obstacle;
  snap_speedPxPerSec : number;
  snap_timeSec : number;
  snap_distancePx : number;
  snap_score : number;
  snap_crashed : bool
}.

Definition getSnapshot (s : LaneRunnerSim) : SimSnapshot :=
  {| snap_lane := lane s;
     snap_pose := pose s;
     snap_poseT := poseT s;
     snap_obstacles := obstacles s;
     snap_speedPxPerSec := speedPxPerSec s;
     snap_timeSec := timeSec s;
     snap_distancePx := distancePx s;
     snap_score := score s;
     snap_crashed := crashed s |}.

Definition getGameOverStats (s : LaneRunnerSim) : GameOverStats :=
  {| gs_score := floor (score s);
     timeSurvivedSec := timeSec s;
     gs_distancePx := distancePx s;
     difficultyId := id (difficulty s) |}.

Definition moveLeft (s : LaneRunnerSim) : LaneRunnerSim :=
  set_lane s (clamp (sub (lane s) 1) 0 (sub (ofZ (lanes s)) 1)).

Definition moveRight (s : LaneRunnerSim) : LaneRunnerSim :=
  set_lane s (clamp (add (lane s) 1) 0 (sub (ofZ (lanes s)) 1)).

Definition moveToLane (l : number) (s : LaneRunnerSim) : LaneRunnerSim :=
  set_lane s (clamp (round l) 0 (sub (ofZ (lanes s)) 1)).

Definition jump (s : LaneRunnerSim) : LaneRunnerSim :=
  match pose s with
  | normal => set_poseT (set_pose s jumping) 0
  | _ => s
  end.

Definition slide (s : LaneRunnerSim) : LaneRunnerSim :=
  match pose s with
  | normal => set_poseT (set_pose s sliding) 0
  | _ => s
  end.

Definition getPlayerPose (s : LaneRunnerSim) : PlayerPose * number := (pose s, poseT s).

Definition getPlayerLane (s : LaneRunnerSim) : number := lane s.

Definition getObstacleRect (s : LaneRunnerSim) (o : Obstacle) (roadX roadW : number) : Rect :=
  let laneWidth := div roadW (ofZ (lanes s)) in
  let lanePadding := mul laneWidth 0.2 in
  let x :=
    add (add (add roadX (mul (o_lane o) laneWidth)) lanePadding)
        (div (sub (sub laneWidth (mul 2 lanePadding)) (o_width o)) 2) in
  {| rx := x; ry := o_y o; rw := o_width o; rh := o_height o |}.

(** [this.obstacles[this.obstacles.length - 1]]: undefined on an empty
    array. *)
Fixpoint lastOf {A : Type} (l : list A) : option A :=
  match l with
  | [] => None
  | [a] => Some a
  | _ :: r => lastOf r
  end.

Definition spawnObstacle (roadW : number) (s : LaneRunnerSim) (g : Rng)
  : LaneRunnerSim * Rng :=
  let (r1, g) := Math_random g in
  let lane := floor (mul r1 (ofZ (lanes s))) in
  let laneBias : number :=
    match lastOf (obstacles s) with
    | Some last => if eqb (o_lane last) lane then 0.25 else 0.0
    | None => 0.0
    end in
  let (r2, g) := Math_random g in
  let roll := add r2 laneBias in
  let kind := if lt roll 0.6 then low else high in
  let laneWidth := div roadW (ofZ (lanes s)) in
  let width := floor (mul laneWidth 0.58) in
  let height : number := match kind with low => 22 | high => 26 end in
  let (r3, g) := Math_random g in
  let y := sub (-120) (mul r3 220) in
  let (oid, g) := makeId "obs" g in
  (set_obstacles s (obstacles s ++ [mkObstacle oid lane kind y width height]), g).

(** The body of the [while] loop of [update]: one obstacle, and the
    cooldown put forward by the interval and its jitter. *)
Definition spawnIteration (roadW : number) (s : LaneRunnerSim) (g : Rng)
  : LaneRunnerSim * Rng :=
  let (s, g) := spawnObstacle roadW s g in
  let jitter := mul 0.15 (spawnIntervalSec s) in
  let (r, g) := Math_random g in
  (set_spawnCooldownSec s
     (add (spawnCooldownSec s)
          (add (spawnIntervalSec s) (mul (sub (mul r 2) 1) jitter))), g).

(** The [while (this.spawnCooldownSec <= 0)] loop of [update]; one unit of
    fuel per iteration. *)
Fixpoint spawnLoop (fuel : nat) (roadW : number) (s : LaneRunnerSim) (g : Rng)
  : option (LaneRunnerSim * Rng) :=
  if le (spawnCooldownSec s) 0 then
    match fuel with
    | O => None
    | S fuel =>
        let (s, g) := spawnIteration roadW s g in
        spawnLoop fuel roadW s g
    end
  else Some (s, g).

(** The collision loop of [update]: true when the loop reaches its [break]. *)
Fixpoint collides (s : LaneRunnerSim) (carRect : Rect) (roadX roadW : number)
  (os : list Obstacle) : bool :=
  match os with
  | [] => false
  | o :: rest =>
      if rectsOverlap carRect (getObstacleRect s o roadX roadW) then true
      else collides s carRect roadX roadW rest
  end.

Definition pose_eqb (p q : PlayerPose) : bool :=
  match p, q with
  | normal, normal | jumping, jumping | sliding, sliding => true
  | _, _ => false
  end.

(** The time a pose lasts: [this.pose === 'jumping' ? 0.6 : 0.75]. *)
Definition duration (p : PlayerPose) : number :=
  if pose_eqb p jumping then 0.6 else 0.75.

(** The pose block of [update]. *)
Definition updatePose (dt : number) (s : LaneRunnerSim) : LaneRunnerSim :=
  if negb (pose_eqb (pose s) normal) then
    let s := set_poseT s (add (poseT s) dt) in
    if ge (poseT s) (duration (pose s)) then set_poseT (set_pose s normal) 0 else s
  else s.

(** The statements of [update] before the spawn loop, from the clamped step. *)
Definition updateRun (dt : number) (s : LaneRunnerSim) : LaneRunnerSim :=
  let s := set_timeSec s (add (timeSec s) dt) in
  let s := set_distancePx s (add (distancePx s) (mul (speedPxPerSec s) dt)) in
  let s := set_score s (add (mul (timeSec s) 12) (div (distancePx s) 18)) in
  let s := set_speedPxPerSec s (mul (speedPxPerSec s) (add 1 (mul 0.005 dt))) in
  let s := set_spawnIntervalSec s
             (max 0.25 (mul (spawnIntervalSec s) (sub 1 (mul 0.01 dt)))) in
  let s := updatePose dt s in
  set_spawnCooldownSec s (sub (spawnCooldownSec s) dt).

(** The statements of [update] after the spawn loop. *)
Definition updateObstacles (dt : number) (world : World) (s : LaneRunnerSim)
  : LaneRunnerSim :=
  let s := set_obstacles s
             (map (fun o => set_o_y o (add (o_y o) (mul (speedPxPerSec s) dt)))
                  (obstacles s)) in
  let s := set_obstacles s
             (filter (fun o => lt (o_y o) (add (height world) 120)) (obstacles s)) in
  let carRect := car world in
  if collides s carRect (roadX world) (roadW world) (obstacles s)
  then set_crashed s true else s.

Definition update (fuel : nat) (dtSec : number) (world : World)
  (s : LaneRunnerSim) (g : Rng) : option (LaneRunnerSim * Rng) :=
  if crashed s then Some (s, g) else
  if negb (isFinite dtSec) || le dtSec 0 then Some (s, g) else
  let dt := clamp dtSec 0 0.05 in
  let s := updateRun dt s in
  match spawnLoop fuel (roadW world) s g with
  | None => None
  | Some (s, g) => Some (updateObstacles dt world s, g)
  end.

(** The constant [dt] of [update]: the step after clamping. *)
Definition stepOf (dtSec : number) : number := clamp dtSec 0 0.05.

(** The calls a driver can make besides [update]. *)
Inductive Command : Type :=
| MoveLeft
| MoveRight
| MoveToLane (l : number)
| Jump
| Slide.

Definition perform (c : Command) (s : LaneRunnerSim) : LaneRunnerSim :=
  match c with
  | MoveLeft => moveLeft s
  | MoveRight => moveRight s
  | MoveToLane l => moveToLane l s
  | Jump => jump s
  | Slide => slide s
  end.

(** One call on the engine: a command, or an [update] that returns. *)
Inductive step : LaneRunnerSim -> LaneRunnerSim -> Prop :=
| step_command (c : Command) (s : LaneRunnerSim) :
    step s (perform c s)
| step_update (fuel : nat) (dtSec : number) (world : World)
    (s s' : LaneRunnerSim) (g g' : Rng) :
    rng_ok g ->
    update fuel dtSec world s g = Some (s', g') ->
    step s s'.

(** Any number of calls, one after the other. *)
Inductive steps : LaneRunnerSim -> LaneRunnerSim -> Prop :=
| steps_nil (s : LaneRunnerSim) : steps s s
| steps_cons (s s1 s2 : LaneRunnerSim) : step s s1 -> steps s1 s2 -> steps s s2.

(** A run of [update] calls alone, each with its step and its world. *)
Fixpoint updates (fuel : nat) (calls : list (number * World))
  (s : LaneRunnerSim) (g : Rng) : option (LaneRunnerSim * Rng) :=
  match calls with
  | [] => Some (s, g)
  | (dtSec, world) :: rest =>
      match update fuel dtSec world s g with
      | None => None
      | Some (s, g) => updates fuel rest s g
      end
  end.

(** The fields that no command writes: the run counters, the obstacles
    and the crashed flag. *)
Definition same_run (s s' : LaneRunnerSim) : Prop :=
  lanes s' = lanes s /\ difficulty s' = difficulty s /\
  timeSec s' = timeSec s /\ distancePx s' = distancePx s /\
  score s' = score s /\ speedPxPerSec s' = speedPxPerSec s /\
  spawnIntervalSec s' = spawnIntervalSec s /\
  spawnCooldownSec s' = spawnCooldownSec s /\
  crashed s' = crashed s /\ obstacles s' = obstacles s.

(** An obstacle after the move of one [update]. *)
Definition moved (s : LaneRunnerSim) (dt : number) (o : Obstacle) : Obstacle :=
  set_o_y o (add (o_y o) (mul (speedPxPerSec s) dt)).

(** The test that keeps an obstacle in the active set. *)
Definition kept (world : World) (o : Obstacle) : bool :=
  lt (o_y o) (add (height world) 120).

(** The test of the collision loop on one obstacle. *)
Definition hits (s : LaneRunnerSim) (world : World) (o : Obstacle) : bool :=
  rectsOverlap (car world) (getObstacleRect s o (roadX world) (roadW world)).

(** The states in which every quantity of the run is a finite number in
    its range, and the score is the blend of time and distance. *)
Definition wellformed (s : LaneRunnerSim) : Prop :=
  exists t x sc v i c p : Q,
    timeSec s = Fin t /\ distancePx s = Fin x /\ score s = Fin sc /\
    speedPxPerSec s = Fin v /\ spawnIntervalSec s = Fin i /\
    spawnCooldownSec s = Fin c /\ poseT s = Fin p /\
    0 <= t /\ 0 <= x /\ sc == t * 12 + x / 18 /\ 0 <= v /\ 0 < i /\ 0 <= p.

(** The spawn interval is a finite number at or above the floor. *)
Definition floored (s : LaneRunnerSim) : Prop :=
  exists i, spawnIntervalSec s = Fin i /\ 0.25 <= i.

(** A configuration as the data model has it: finite positive initial
    speed and spawn interval, at least one lane. *)
Definition valid_config (cfg : SimConfig) : Prop :=
  (exists v, initialSpeedPxPerSec (cfg_difficulty cfg) = Fin v /\ 0 < v) /\
  (exists i, initialSpawnIntervalSec (cfg_difficulty cfg) = Fin i /\ 0 < i) /\
  (1 <= cfg_lanes cfg)%Z.

(* ================================================================== *)
(** ** [GameCanvas.tsx]: the world that the driver passes to [update] *)

Record Road : Type := mkRoad {
  road_roadX : number;
  road_roadW : number;
  road_roadY : number;
  road_roadH : number;
  road_roadBottom : number
}.

Definition roadForSize (w h : number) : Road :=
  let roadX := floor (mul w 0.08) in
  let roadW := floor (mul w 0.84) in
  let roadY : number := 22 in
  let roadH := sub h 44 in
  let roadBottom := add roadY roadH in
  mkRoad roadX roadW roadY roadH roadBottom.

(** [buildWorld]; the sine of the jump arc, [Math.sin(Math.PI * t)], is
    the parameter [sinPi]: it is read in pose jumping only. *)
Definition buildWorld (sinPi : number -> number) (sim : LaneRunnerSim)
  (w h : number) : World :=
  let road := roadForSize w h in
  let laneWidth := div (road_roadW road) 4 in
  let lanePadding := mul laneWidth 0.2 in
  let pose := getPlayerPose sim in
  let lane := getPlayerLane sim in
  let baseCarW := mul laneWidth 0.56 in
  let baseCarH : number := 46 in
  let slideH : number := 28 in
  let carW := baseCarW in
  let carH := if pose_eqb (fst pose) sliding then slideH else baseCarH in
  let baseCarY := sub (sub (road_roadBottom road) carH) 10 in
  let jumpH : number := 64 in
  let jumpT : number :=
    if pose_eqb (fst pose) jumping then min 1 (div (snd pose) 0.6) else 0 in
  let jumpOffset : number :=
    if pose_eqb (fst pose) jumping then mul (neg (sinPi jumpT)) jumpH else 0 in
  let x :=
    add (add (add (road_roadX road) (mul lane laneWidth)) lanePadding)
        (div (sub (sub laneWidth (mul 2 lanePadding)) carW) 2) in
  let y := add baseCarY jumpOffset in
  {| width := w; height := h;
     roadX := road_roadX road; roadW := road_roadW road;
     car := {| rx := x; ry := y; rw := carW; rh := carH |} |}.

(* ================================================================== *)
(** ** Sample data *)

(** The easy preset on four lanes, a generator that always draws 1/2, and
    the world that the canvas builds for a new engine in a viewport of
    900 x 560: the road from x = 72, 756 wide, and the car in lane 1 at
    (302.58, 482), 105.84 wide and 46 high. *)
Definition easyOption : DifficultyOption := mkDifficulty easy "Easy" 220 1.35.

Definition easy4 : SimConfig := mkConfig easyOption 4.

Definition halves : Rng := mkRng (fun _ => 1 # 2) 0.

Definition world900 : World := buildWorld (fun _ => 0) (new easy4) 900 560.

(** An obstacle put by hand in lane 1, its rectangle across the lower part
    of the car of [world900], and the engine that holds it. *)
Definition injected : Obstacle := mkObstacle ("obs"%string, Fin 0) 1 low 520 109 22.

Definition injectedSim : LaneRunnerSim := set_obstacles (new easy4) [injected].




(** An engine after its crash. *)
Definition crashedSim : LaneRunnerSim := set_crashed (new easy4) true.

(** A preset with a spawn interval of a tenth of a second. *)
Definition shortConfig : SimConfig := mkConfig (mkDifficulty easy "Easy" 220 0.1) 4.

(** [this.lanes - 1], the upper bound of the clamp of the lane. *)
Definition lastLane (s : LaneRunnerSim) : Q := inject_Z (lanes s) + - (1).

(** The commands that write the lane. *)
Definition is_move (c : Command) : bool :=
  match c with
  | MoveLeft | MoveRight | MoveToLane _ => true
  | _ => false
  end.

(** The lane index is a finite number within the lanes. *)
Definition in_range (s : LaneRunnerSim) : Prop :=
  exists q, lane s = Fin q /\ 0 <= q /\ q < inject_Z (lanes s).

(** Rewriting of the projections of a state that the setters built. *)
Ltac fields :=
  cbn [lanes difficulty timeSec distancePx score lane pose poseT speedPxPerSec
       spawnIntervalSec spawnCooldownSec crashed obstacles
       set_timeSec set_distancePx set_score set_lane set_pose set_poseT
       set_speedPxPerSec set_spawnIntervalSec set_spawnCooldownSec set_crashed
       set_obstacles pose_eqb negb fst snd] in *.

(* ================================================================== *)
(** ** [GameCanvas.tsx]: the viewport, the pointer and the keys *)

(** The truth value of a number in a condition or under [||]: zero and NaN
    are false. *)
Definition truthy (a : number) : bool :=
  match a with
  | Fin q => negb (Qeq_bool q 0)
  | NaN => false
  | _ => true
  end.

Record Viewport : Type := mkViewport {
  vp_w : number;
  vp_h : number;
  vp_dpr : number
}.

(** The callback of the [ResizeObserver], from the bounding rectangle of
    the container and [window.devicePixelRatio]: the viewport it stores.
    The sizes it then writes to the canvas element are not modelled. *)
Definition resizeViewport (rectWidth rectHeight devicePixelRatio : number)
  : Viewport :=
  let dpr :=
    max 1 (min (if truthy devicePixelRatio then devicePixelRatio else 1) 2) in
  let w := max 320 (floor rectWidth) in
  let h := max 420 (floor rectHeight) in
  mkViewport w h dpr.

(** The lane under the pointer, as [onPointerDown] computes it from the
    bounding rectangle of the canvas and [e.clientX]. *)
Definition pointerLane (rectLeft rectWidth rectHeight clientX : number)
  : number :=
  let x := sub clientX rectLeft in
  let road := roadForSize rectWidth rectHeight in
  let laneW := div (road_roadW road) 4 in
  let clamped :=
    max 0 (min (sub (road_roadW road) 1) (sub x (road_roadX road))) in
  floor (div clamped laneW).

Definition onPointerDown (paused showGameOverOverlay : bool)
  (rectLeft rectWidth rectHeight clientX : number) (s : LaneRunnerSim)
  : LaneRunnerSim :=
  if paused || showGameOverOverlay then s
  else moveToLane (pointerLane rectLeft rectWidth rectHeight clientX) s.

(** What a key press comes to: nothing, the pause toggle, or a command on
    the engine. *)
Inductive KeyEffect : Type :=
| KeyIgnored
| KeyPauseToggle
| KeyCommand (c : Command).

Definition onKeyDown (repeated : bool) (key : string)
  (paused showGameOverOverlay : bool) : KeyEffect :=
  if repeated then KeyIgnored
  else if (String.eqb key "p" || String.eqb key "P" || String.eqb key "Escape")%bool
  then KeyPauseToggle
  else if paused || showGameOverOverlay then KeyIgnored
  else if String.eqb key "ArrowLeft" then KeyCommand MoveLeft
  else if String.eqb key "ArrowRight" then KeyCommand MoveRight
  else if String.eqb key "ArrowUp" then KeyCommand Jump
  else if String.eqb key "ArrowDown" then KeyCommand Slide
  else KeyIgnored.

(* ================================================================== *)
(** ** [App.tsx]: the screens *)

Inductive Screen : Type :=
| screen_start
| screen_playing
| screen_paused
| screen_gameover.

(** The state of the component [App]: one field per [useState]. *)
Record AppState : Type := mkApp {
  screen : Screen;
  runId : Z;
  app_difficultyId : DifficultyId;
  carId : string;
  lastRun : option GameOverStats
}.

Definition onStart (a : AppState) : AppState :=
  mkApp screen_playing (runId a + 1) (app_difficultyId a) (carId a) None.

Definition onPauseToggle (a : AppState) : AppState :=
  mkApp (match screen a with screen_paused => screen_playing | _ => screen_paused end)
        (runId a) (app_difficultyId a) (carId a) (lastRun a).

Definition onExitToStart (a : AppState) : AppState :=
  mkApp screen_start (runId a) (app_difficultyId a) (carId a) None.

Definition onGameOver (stats : GameOverStats) (a : AppState) : AppState :=
  mkApp screen_gameover (runId a) (app_difficultyId a) (carId a) (Some stats).

Definition onRestart (a : AppState) : AppState :=
  mkApp screen_playing (runId a + 1) (app_difficultyId a) (carId a) None.

(** The two flags that [App] passes to [GameCanvas], which it renders on
    every screen but the start screen. *)
Definition pausedProp (a : AppState) : bool :=
  match screen a with screen_paused => true | _ => false end.

Definition showGameOverOverlayProp (a : AppState) : bool :=
  match screen a with screen_gameover => true | _ => false end.

Definition difficultyId_eqb (a b : DifficultyId) : bool :=
  match a, b with
  | easy, easy | medium, medium | hard, hard => true
  | _, _ => false
  end.

(** [DIFFICULTIES.find((d) => d.id === difficultyId) ?? DIFFICULTIES[0]] *)
Definition selectedDifficulty (difficultyId : DifficultyId)
  : option DifficultyOption :=
  match find (fun d => difficultyId_eqb (id d) difficultyId) DIFFICULTIES with
  | Some d => Some d
  | None => hd_error DIFFICULTIES
  end.

(** The engine that [GameCanvas] makes for a difficulty: four lanes. *)
Definition canvasConfig (d : DifficultyOption) : SimConfig := mkConfig d 4.

(* ================================================================== *)
(** ** Notions for the properties below *)

(** The spawn cooldown is a finite number above zero. *)
Definition cooling (s : LaneRunnerSim) : Prop :=
  exists c, spawnCooldownSec s = Fin c /\ 0 < c.

(** A rectangle with a NaN among its four numbers. *)
Definition has_NaN (r : Rect) : Prop :=
  rx r = NaN \/ ry r = NaN \/ rw r = NaN \/ rh r = NaN.

(** An obstacle with another kind and another identifier. *)
Definition relabelled (k : ObstacleKind) (i : string * number) (o : Obstacle)
  : Obstacle :=
  mkObstacle i (o_lane o) k (o_y o) (o_width o) (o_height o).

(* ================================================================== *)
(** ** The engine on binary64 numbers *)

(** The same class once more, with the numbers of the machine: a [number]
    is an IEEE 754 binary64 value ([spec_float] at precision 53 and
    exponent bound 1024), every arithmetic operation rounds to nearest,
    ties to even, as [SFadd], [SFsub], [SFmul] and [SFdiv] specify it, and a
    decimal literal of the source is the binary64 number nearest to it.
    Zero has a sign, sums can overflow to an infinity and a small addend
    can be absorbed.  This is the model for the properties in which a
    rounded sum decides a test: the pose clock against the duration of the
    pose, and the cooldown of the spawn loop. *)

Module F64.

Definition prec : Z := 53.
Definition emax : Z := 1024.

Definition number : Type := spec_float.

(** [Number.isFinite] *)
Definition isFinite (a : number) : bool :=
  match a with
  | S754_zero _ | S754_finite _ _ _ => true
  | _ => false
  end.

Definition add (a b : number) : number := SFadd prec emax a b.
Definition sub (a b : number) : number := SFsub prec emax a b.
Definition mul (a b : number) : number := SFmul prec emax a b.
Definition div (a b : number) : number := SFdiv prec emax a b.

(** [<], [<=], [>], [>=] and [===]: false as soon as one side is NaN; the
    two zeros are equal. *)
Definition lt (a b : number) : bool := SFltb a b.
Definition le (a b : number) : bool := SFleb a b.
Definition gt (a b : number) : bool := SFltb b a.
Definition ge (a b : number) : bool := SFleb b a.
Definition eqb (a b : number) : bool := SFeqb a b.

(** [Math.max] and [Math.min] of two arguments: NaN as soon as one
    argument is NaN, and +0 above -0. *)
Definition max (a b : number) : number :=
  match SFcompare a b with
  | None => S754_nan
  | Some Lt => b
  | Some Gt => a
  | Some Eq => match a with S754_zero true => b | _ => a end
  end.

Definition min (a b : number) : number :=
  match SFcompare a b with
  | None => S754_nan
  | Some Gt => b
  | Some Lt => a
  | Some Eq => match a with S754_zero false => b | _ => a end
  end.

(** An integer as a number: exact below 2^53 in magnitude. *)
Definition ofZ (z : Z) : number := binary_normalize prec emax z 0 false.

(** A decimal literal [n / 10^k]: the quotient of two integers that are
    numbers exactly, rounded once, hence the number nearest to the
    decimal. *)
Definition dec (q : Q) : number := div (ofZ (Qnum q)) (ofZ (Zpos (Qden q))).

(** [Math.floor]: a number with an exponent of zero or more is an integer;
    below, the mantissa is cut at the binary point, one more down when the
    number is negative and bits are lost. *)
Definition floor (a : number) : number :=
  match a with
  | S754_finite s m e =>
      if (0 <=? e)%Z then a
      else
        let q := Z.shiftr (Zpos m) (- e) in
        let whole := Z.eqb (Z.shiftl q (- e)) (Zpos m) in
        if s then (if whole then ofZ (- q) else ofZ (- q - 1))
        else if Z.eqb q 0 then S754_zero false else ofZ q
  | _ => a
  end.

(** The rational that a finite number is; 0 for the others. *)
Definition toQ (a : number) : Q :=
  match a with
  | S754_finite s m e =>
      let v :=
        match e with
        | Z0 => inject_Z (Zpos m)
        | Zpos p => inject_Z (Zpos m * 2 ^ Zpos p)%Z
        | Zneg p => Zpos m # (2 ^ p)%positive
        end in
      if s then - v else v
  | _ => 0
  end.

Record DifficultyOption : Type := mkDifficulty {
  id : DifficultyId;
  name : string;
  initialSpeedPxPerSec : number;
  initialSpawnIntervalSec : number
}.

Record Obstacle : Type := mkObstacle {
  o_id : string * number;
  o_lane : number;
  o_kind : ObstacleKind;
  o_y : number;
  o_width : number;
  o_height : number
}.

Record Rect : Type := mkRect { rx : number; ry : number; rw : number; rh : number }.

Definition rectsOverlap (a b : Rect) : bool :=
  lt (rx a) (add (rx b) (rw b)) && gt (add (rx a) (rw a)) (rx b)
  && lt (ry a) (add (ry b) (rh b)) && gt (add (ry a) (rh a)) (ry b).

Definition clamp (n mn mx : number) : number := max mn (min mx n).

(** The ambient random generator, its draws binary64 numbers. *)
Record Rng : Type := mkRng { draws : nat -> number; cursor : nat }.

Definition Math_random (g : Rng) : number * Rng :=
  (draws g (cursor g), mkRng (draws g) (S (cursor g))).

Definition makeId (prefix : string) (g : Rng) : (string * number) * Rng :=
  let (r, g) := Math_random g in ((prefix, r), g).

Record SimConfig : Type := mkConfig {
  cfg_difficulty : DifficultyOption;
  cfg_lanes : Z
}.

Record World : Type := mkWorld {
  width : number;
  height : number;
  roadX : number;
  roadW : number;
  car : Rect
}.

Record LaneRunnerSim : Type := mkSim {
  lanes : Z;
  difficulty : DifficultyOption;
  timeSec : number;
  distancePx : number;
  score : number;
  lane : number;
  pose : PlayerPose;
  poseT : number;
  speedPxPerSec : number;
  spawnIntervalSec : number;
  spawnCooldownSec : number;
  crashed : bool;
  obstacles : list Obstacle
}.

Definition set_timeSec (s : LaneRunnerSim) (v : number) : LaneRunnerSim :=
  mkSim (lanes s) (difficulty s) v (distancePx s) (score s) (lane s) (pose s)
        (poseT s) (speedPxPerSec s) (spawnIntervalSec s) (spawnCooldownSec s)
        (crashed s) (obstacles s).

Definition set_distancePx (s : LaneRunnerSim) (v : number) : LaneRunnerSim :=
  mkSim (lanes s) (difficulty s) (timeSec s) v (score s) (lane s) (pose s)
        (poseT s) (speedPxPerSec s) (spawnIntervalSec s) (spawnCooldownSec s)
        (crashed s) (obstacles s).

Definition set_score (s : LaneRunnerSim) (v : number) : LaneRunnerSim :=
  mkSim (lanes s) (difficulty s) (timeSec s) (distancePx s) v (lane s) (pose s)
        (poseT s) (speedPxPerSec s) (spawnIntervalSec s) (spawnCooldownSec s)
        (crashed s) (obstacles s).

Definition set_pose (s : LaneRunnerSim) (v : PlayerPose) : LaneRunnerSim :=
  mkSim (lanes s) (difficulty s) (timeSec s) (distancePx s) (score s) (lane s) v
        (poseT s) (speedPxPerSec s) (spawnIntervalSec s) (spawnCooldownSec s)
        (crashed s) (obstacles s).

Definition set_poseT (s : LaneRunnerSim) (v : number) : LaneRunnerSim :=
  mkSim (lanes s) (difficulty s) (timeSec s) (distancePx s) (score s) (lane s)
        (pose s) v (speedPxPerSec s) (spawnIntervalSec s) (spawnCooldownSec s)
        (crashed s) (obstacles s).

Definition set_speedPxPerSec (s : LaneRunnerSim) (v : number) : LaneRunnerSim :=
  mkSim (lanes s) (difficulty s) (timeSec s) (distancePx s) (score s) (lane s)
        (pose s) (poseT s) v (spawnIntervalSec s) (spawnCooldownSec s)
        (crashed s) (obstacles s).

Definition set_spawnIntervalSec (s : LaneRunnerSim) (v : number) : LaneRunnerSim :=
  mkSim (lanes s) (difficulty s) (timeSec s) (distancePx s) (score s) (lane s)
        (pose s) (poseT s) (speedPxPerSec s) v (spawnCooldownSec s)
        (crashed s) (obstacles s).

Definition set_spawnCooldownSec (s : LaneRunnerSim) (v : number) : LaneRunnerSim :=
  mkSim (lanes s) (difficulty s) (timeSec s) (distancePx s) (score s) (lane s)
        (pose s) (poseT s) (speedPxPerSec s) (spawnIntervalSec s) v
        (crashed s) (obstacles s).

Definition set_crashed (s : LaneRunnerSim) (v : bool) : LaneRunnerSim :=
  mkSim (lanes s) (difficulty s) (timeSec s) (distancePx s) (score s) (lane s)
        (pose s) (poseT s) (speedPxPerSec s) (spawnIntervalSec s)
        (spawnCooldownSec s) v (obstacles s).

Definition set_obstacles (s : LaneRunnerSim) (v : list Obstacle) : LaneRunnerSim :=
  mkSim (lanes s) (difficulty s) (timeSec s) (distancePx s) (score s) (lane s)
        (pose s) (poseT s) (speedPxPerSec s) (spawnIntervalSec s)
        (spawnCooldownSec s) (crashed s) v.

Definition set_o_y (o : Obstacle) (v : number) : Obstacle :=
  mkObstacle (o_id o) (o_lane o) (o_kind o) v (o_width o) (o_height o).

(** The field initialisers and the constructor. *)
Definition new (cfg : SimConfig) : LaneRunnerSim :=
  {| lanes := cfg_lanes cfg;
     difficulty := cfg_difficulty cfg;
     timeSec := ofZ 0;
     distancePx := ofZ 0;
     score := ofZ 0;
     lane := ofZ 1;
     pose := normal;
     poseT := ofZ 0;
     speedPxPerSec := initialSpeedPxPerSec (cfg_difficulty cfg);
     spawnIntervalSec := initialSpawnIntervalSec (cfg_difficulty cfg);
     spawnCooldownSec := initialSpawnIntervalSec (cfg_difficulty cfg);
     crashed := false;
     obstacles := [] |}.

Definition jump (s : LaneRunnerSim) : LaneRunnerSim :=
  match pose s with
  | normal => set_poseT (set_pose s jumping) (ofZ 0)
  | _ => s
  end.

Definition slide (s : LaneRunnerSim) : LaneRunnerSim :=
  match pose s with
  | normal => set_poseT (set_pose s sliding) (ofZ 0)
  | _ => s
  end.

Definition getObstacleRect (s : LaneRunnerSim) (o : Obstacle) (roadX roadW : number) : Rect :=
  let laneWidth := div roadW (ofZ (lanes s)) in
  let lanePadding := mul laneWidth (dec 0.2) in
  let x :=
    add (add (add roadX (mul (o_lane o) laneWidth)) lanePadding)
        (div (sub (sub laneWidth (mul (ofZ 2) lanePadding)) (o_width o)) (ofZ 2)) in
  {| rx := x; ry := o_y o; rw := o_width o; rh := o_height o |}.

Definition spawnObstacle (roadW : number) (s : LaneRunnerSim) (g : Rng)
  : LaneRunnerSim * Rng :=
  let (r1, g) := Math_random g in
  let lane := floor (mul r1 (ofZ (lanes s))) in
  let laneBias : number :=
    match lastOf (obstacles s) with
    | Some last => if eqb (o_lane last) lane then dec 0.25 else dec 0.0
    | None => dec 0.0
    end in
  let (r2, g) := Math_random g in
  let roll := add r2 laneBias in
  let kind := if lt roll (dec 0.6) then low else high in
  let laneWidth := div roadW (ofZ (lanes s)) in
  let width := floor (mul laneWidth (dec 0.58)) in
  let height : number := match kind with low => ofZ 22 | high => ofZ 26 end in
  let (r3, g) := Math_random g in
  let y := sub (ofZ (-120)) (mul r3 (ofZ 220)) in
  let (oid, g) := makeId "obs" g in
  (set_obstacles s (obstacles s ++ [mkObstacle oid lane kind y width height]), g).

(** The body of the [while] loop of [update]. *)
Definition spawnIteration (roadW : number) (s : LaneRunnerSim) (g : Rng)
  : LaneRunnerSim * Rng :=
  let (s, g) := spawnObstacle roadW s g in
  let jitter := mul (dec 0.15) (spawnIntervalSec s) in
  let (r, g) := Math_random g in
  (set_spawnCooldownSec s
     (add (spawnCooldownSec s)
          (add (spawnIntervalSec s) (mul (sub (mul r (ofZ 2)) (ofZ 1)) jitter))), g).

(** The [while (this.spawnCooldownSec <= 0)] loop of [update]; one unit of
    fuel per iteration. *)
Fixpoint spawnLoop (fuel : nat) (roadW : number) (s : LaneRunnerSim) (g : Rng)
  : option (LaneRunnerSim * Rng) :=
  if le (spawnCooldownSec s) (ofZ 0) then
    match fuel with
    | O => None
    | S fuel =>
        let (s, g) := spawnIteration roadW s g in
        spawnLoop fuel roadW s g
    end
  else Some (s, g).

(** The collision loop of [update]: true when the loop reaches its [break]. *)
Fixpoint collides (s : LaneRunnerSim) (carRect : Rect) (roadX roadW : number)
  (os : list Obstacle) : bool :=
  match os with
  | [] => false
  | o :: rest =>
      if rectsOverlap carRect (getObstacleRect s o roadX roadW) then true
      else collides s carRect roadX roadW rest
  end.

(** The time a pose lasts: [this.pose === 'jumping' ? 0.6 : 0.75]. *)
Definition duration (p : PlayerPose) : number :=
  if pose_eqb p jumping then dec 0.6 else dec 0.75.

(** The pose block of [update]. *)
Definition updatePose (dt : number) (s : LaneRunnerSim) : LaneRunnerSim :=
  if negb (pose_eqb (pose s) normal) then
    let s := set_poseT s (add (poseT s) dt) in
    if ge (poseT s) (duration (pose s)) then set_poseT (set_pose s normal) (ofZ 0) else s
  else s.

(** The statements of [update] before the spawn loop, from the clamped step. *)
Definition updateRun (dt : number) (s : LaneRunnerSim) : LaneRunnerSim :=
  let s := set_timeSec s (add (timeSec s) dt) in
  let s := set_distancePx s (add (distancePx s) (mul (speedPxPerSec s) dt)) in
  let s := set_score s (add (mul (timeSec s) (ofZ 12)) (div (distancePx s) (ofZ 18))) in
  let s := set_speedPxPerSec s
             (mul (speedPxPerSec s) (add (ofZ 1) (mul (dec 0.005) dt))) in
  let s := set_spawnIntervalSec s
             (max (dec 0.25)
                  (mul (spawnIntervalSec s) (sub (ofZ 1) (mul (dec 0.01) dt)))) in
  let s := updatePose dt s in
  set_spawnCooldownSec s (sub (spawnCooldownSec s) dt).

(** The statements of [update] after the spawn loop. *)
Definition updateObstacles (dt : number) (world : World) (s : LaneRunnerSim)
  : LaneRunnerSim :=
  let s := set_obstacles s
             (map (fun o => set_o_y o (add (o_y o) (mul (speedPxPerSec s) dt)))
                  (obstacles s)) in
  let s := set_obstacles s
             (filter (fun o => lt (o_y o) (add (height world) (ofZ 120))) (obstacles s)) in
  let carRect := car world in
  if collides s carRect (roadX world) (roadW world) (obstacles s)
  then set_crashed s true else s.

Definition update (fuel : nat) (dtSec : number) (world : World)
  (s : LaneRunnerSim) (g : Rng) : option (LaneRunnerSim * Rng) :=
  if crashed s then Some (s, g) else
  if negb (isFinite dtSec) || le dtSec (ofZ 0) then Some (s, g) else
  let dt := clamp dtSec (ofZ 0) (dec 0.05) in
  let s := updateRun dt s in
  match spawnLoop fuel (roadW world) s g with
  | None => None
  | Some (s, g) => Some (updateObstacles dt world s, g)
  end.

(** The constant [dt] of [update]: the step after clamping. *)
Definition stepOf (dtSec : number) : number := clamp dtSec (ofZ 0) (dec 0.05).

(** A run of [update] calls, each with its step and its world. *)
Fixpoint updates (fuel : nat) (calls : list (number * World))
  (s : LaneRunnerSim) (g : Rng) : option (LaneRunnerSim * Rng) :=
  match calls with
  | [] => Some (s, g)
  | (dtSec, world) :: rest =>
      match update fuel dtSec world s g with
      | None => None
      | Some (s, g) => updates fuel rest s g
      end
  end.





(** Sample data: the easy preset on four lanes, a generator that always
    draws 1/2, a field of 900 x 560 with the road from x = 72, 756 wide,
    and the car in lane 1 at (302.58, 482), 105.84 wide and 46 high. *)
Definition easy4 : SimConfig :=
  mkConfig (mkDifficulty easy "Easy" (ofZ 220) (dec 1.35)) 4.

Definition halves : Rng := mkRng (fun _ => dec 0.5) 0.

Definition world900 : World :=
  mkWorld (ofZ 900) (ofZ 560) (ofZ 72) (ofZ 756)
          (mkRect (dec 302.58) (ofZ 482) (dec 105.84) (ofZ 46)).

(** A preset whose spawn interval is -10^17 seconds: a finite number, at
    which one unit in the last place is 16. *)
Definition farConfig : SimConfig :=
  mkConfig (mkDifficulty easy "Easy" (ofZ 220) (ofZ (-100000000000000000))) 4.

Ltac fields :=
  cbn [lanes difficulty timeSec distancePx score lane pose poseT speedPxPerSec
       spawnIntervalSec spawnCooldownSec crashed obstacles
       set_timeSec set_distancePx set_score set_pose set_poseT
       set_speedPxPerSec set_spawnIntervalSec set_spawnCooldownSec set_crashed
       set_obstacles pose_eqb negb fst snd] in *.

End F64.

(* ================================================================== *)
(** ** Notions for the properties of the spawn loop *)

(** [n] runs of the body of the spawn loop, one after the other. *)
Fixpoint spawnIterations (n : nat) (roadW : number) (s : LaneRunnerSim) (g : Rng)
  : LaneRunnerSim * Rng :=
  match n with
  | O => (s, g)
  | S n =>
      let (s, g) := spawnIteration roadW s g in
      spawnIterations n roadW s g
  end.

(** A preset whose spawn interval is -Infinity. *)
Definition endlessConfig : SimConfig :=
  mkConfig (mkDifficulty easy "Easy" 220 NegInf) 4.

(* ================================================================== *)
(** ** Notions for the properties of the spawned kind *)

(** The binary64 numbers nearest to the decimals 0.6 and 0.35, as
    rationals: 5404319552844595 / 2^53 and 6305039478318694 / 2^54, both
    just below the decimals. *)
Definition near_06 : Q := F64.toQ (F64.dec 0.6).

Definition near_035 : Q := F64.toQ (F64.dec 0.35).

(* ================================================================== *)
(** ** Facts about numbers *)

Section NumberFacts.

Lemma lt_Fin (x y : Q) : lt (Fin x) (Fin y) = true <-> x < y.
Proof.
  unfold lt; cbn [compare]. rewrite Qlt_alt.
  destruct (x ?= y); split; congruence.
Qed.

Lemma le_Fin (x y : Q) : le (Fin x) (Fin y) = true <-> x <= y.
Proof.
  unfold le; cbn [compare]. rewrite Qle_alt.
  destruct (x ?= y); split; congruence.
Qed.

Lemma gt_Fin (x y : Q) : gt (Fin x) (Fin y) = true <-> y < x.
Proof.
  unfold gt; cbn [compare]. rewrite Qgt_alt.
  destruct (x ?= y); split; congruence.
Qed.

Lemma ge_Fin (x y : Q) : ge (Fin x) (Fin y) = true <-> y <= x.
Proof.
  unfold ge; cbn [compare]. rewrite Qge_alt.
  destruct (x ?= y); split; congruence.
Qed.

Lemma le_Fin_false (x y : Q) : le (Fin x) (Fin y) = false <-> y < x.
Proof.
  split; intros H.
  - destruct (Qlt_le_dec y x) as [L | L]; [exact L |].
    apply le_Fin in L. congruence.
  - destruct (le (Fin x) (Fin y)) eqn:E; [| reflexivity].
    apply le_Fin in E. lra.
Qed.

Lemma ge_Fin_false (x y : Q) : ge (Fin x) (Fin y) = false <-> x < y.
Proof.
  split; intros H.
  - destruct (Qlt_le_dec x y) as [L | L]; [exact L |].
    apply ge_Fin in L. congruence.
  - destruct (ge (Fin x) (Fin y)) eqn:E; [| reflexivity].
    apply ge_Fin in E. lra.
Qed.

(** [Math.max] of two finite numbers is one of them, and above both. *)
Lemma max_Fin (x y : Q) :
  exists z, max (Fin x) (Fin y) = Fin z /\ x <= z /\ y <= z /\ (z = x \/ z = y).
Proof.
  unfold max; cbn [compare]. destruct (x ?= y) eqn:E.
  - exists x. apply Qeq_alt in E. repeat split; auto; lra.
  - exists y. apply Qlt_alt in E. repeat split; auto; lra.
  - exists x. apply Qgt_alt in E. repeat split; auto; lra.
Qed.

Lemma min_Fin (x y : Q) :
  exists z, min (Fin x) (Fin y) = Fin z /\ z <= x /\ z <= y /\ (z = x \/ z = y).
Proof.
  unfold min; cbn [compare]. destruct (x ?= y) eqn:E.
  - exists x. apply Qeq_alt in E. repeat split; auto; lra.
  - exists x. apply Qlt_alt in E. repeat split; auto; lra.
  - exists y. apply Qgt_alt in E. repeat split; auto; lra.
Qed.

(** The clamped step of a finite positive [dtSec]. *)
Lemma stepOf_Fin (d : Q) :
  0 < d ->
  exists d', stepOf (Fin d) = Fin d' /\ 0 < d' /\ d' <= 0.05 /\ d' <= d /\
             (d' = d \/ d' = 0.05).
Proof.
  intros Hd. unfold stepOf, clamp.
  destruct (min_Fin 0.05 d) as (m & -> & Hm1 & Hm2 & Hm).
  assert (0 < m) by (destruct Hm; subst; lra).
  destruct (max_Fin 0 m) as (z & -> & Hz1 & Hz2 & Hz).
  exists z. split; [reflexivity |].
  destruct Hz as [-> | ->]; [lra |].
  repeat split; auto. destruct Hm; auto.
Qed.

(** What the guard of [update] lets through. *)
Lemma guard_passes (dtSec : number) :
  negb (isFinite dtSec) || le dtSec 0 = false ->
  exists d, dtSec = Fin d /\ 0 < d.
Proof.
  destruct dtSec as [d | | |]; cbn [isFinite negb orb]; try discriminate.
  intros H. exists d. split; [reflexivity |]. now apply le_Fin_false.
Qed.

Lemma guard_Fin (d : Q) : 0 < d -> negb (isFinite (Fin d)) || le (Fin d) 0 = false.
Proof. intros H. cbn [isFinite negb orb]. now apply le_Fin_false. Qed.

End NumberFacts.

(* ================================================================== *)
(** ** Facts about the parts of [update] *)

Section UpdateFacts.

(** The counters after the statements that precede the spawn loop. *)
Lemma updateRun_counters (dt : number) (s : LaneRunnerSim) :
  let s' := updateRun dt s in
  timeSec s' = add (timeSec s) dt /\
  distancePx s' = add (distancePx s) (mul (speedPxPerSec s) dt) /\
  score s' = add (mul (timeSec s') 12) (div (distancePx s') 18) /\
  speedPxPerSec s' = mul (speedPxPerSec s) (add 1 (mul 0.005 dt)) /\
  spawnIntervalSec s' =
    max 0.25 (mul (spawnIntervalSec s) (sub 1 (mul 0.01 dt))) /\
  spawnCooldownSec s' = sub (spawnCooldownSec s) dt /\
  lanes s' = lanes s /\ difficulty s' = difficulty s /\ lane s' = lane s /\
  crashed s' = crashed s /\ obstacles s' = obstacles s.
Proof.
  destruct s as [? ? ? ? ? ? p ? ? ? ? ? ?].
  unfold updateRun, updatePose; fields.
  destruct p; fields; repeat split;
    match goal with
    | |- context [if ?c then _ else _] => destruct c; reflexivity
    | _ => reflexivity
    end.
Qed.

(** The pose after the statements that precede the spawn loop. *)
Lemma updateRun_pose (dt : number) (s : LaneRunnerSim) :
  let s' := updateRun dt s in
  if pose_eqb (pose s) normal
  then pose s' = normal /\ poseT s' = poseT s
  else if ge (add (poseT s) dt) (duration (pose s))
       then pose s' = normal /\ poseT s' = 0
       else pose s' = pose s /\ poseT s' = add (poseT s) dt.
Proof.
  destruct s as [? ? ? ? ? ? p ? ? ? ? ? ?].
  unfold updateRun, updatePose; fields.
  destruct p; fields.
  - split; reflexivity.
  - destruct (ge _ _); fields; split; reflexivity.
  - destruct (ge _ _); fields; split; reflexivity.
Qed.

(** One iteration of the loop: one more obstacle, and the cooldown put
    forward by the interval and a jitter made from one draw. *)
Lemma spawnIteration_effect (rw : number) (s : LaneRunnerSim) (g : Rng) :
  exists o k,
    fst (spawnIteration rw s g) =
      set_spawnCooldownSec (set_obstacles s (obstacles s ++ [o]))
        (add (spawnCooldownSec s)
             (add (spawnIntervalSec s)
                  (mul (sub (mul (Fin (draws g k)) 2) 1)
                       (mul 0.15 (spawnIntervalSec s))))) /\
    draws (snd (spawnIteration rw s g)) = draws g.
Proof.
  cbv [spawnIteration spawnObstacle makeId Math_random]; fields.
  eexists. eexists. split; reflexivity.
Qed.

(** The jitter is at most 15% of the interval, either way. *)
Lemma jitter_bounds (i r : Q) :
  0 < i -> 0 <= r -> r < 1 ->
  0.85 * i <= i + (r * 2 - 1) * (0.15 * i) /\
  i + (r * 2 - 1) * (0.15 * i) < 1.15 * i.
Proof. intros Hi H0 H1. split; nra. Qed.

Lemma set_obstacles_nil (s : LaneRunnerSim) :
  s = set_spawnCooldownSec (set_obstacles s (obstacles s ++ []))
        (spawnCooldownSec s).
Proof. destruct s; fields. now rewrite app_nil_r. Qed.

(** What the loop leaves behind when it ends: some obstacles more, a
    cooldown that fails the loop test, and nothing else written. *)
Lemma spawnLoop_frame (fuel : nat) (rw : number) :
  forall (s : LaneRunnerSim) (g : Rng) (s' : LaneRunnerSim) (g' : Rng),
    spawnLoop fuel rw s g = Some (s', g') ->
    exists spawned,
      s' = set_spawnCooldownSec (set_obstacles s (obstacles s ++ spawned))
             (spawnCooldownSec s') /\
      (List.length spawned <= fuel)%nat /\
      draws g' = draws g /\
      le (spawnCooldownSec s') 0 = false.
Proof.
  induction fuel as [| fuel IH]; intros s g s' g' H; cbn [spawnLoop] in H;
    destruct (le (spawnCooldownSec s) 0) eqn:E; try discriminate.
  - injection H as <- <-. exists []. repeat split; auto using set_obstacles_nil.
  - destruct (spawnIteration rw s g) as [s1 g1] eqn:It.
    destruct (spawnIteration_effect rw s g) as (o & k & Hs1 & Hg1).
    rewrite It in Hs1, Hg1; fields.
    apply IH in H. destruct H as (spawned & Hs' & Hlen & Hg' & Hexit).
    exists (o :: spawned). repeat split.
    + rewrite Hs', Hs1. destruct s; fields.
      now rewrite <- app_assoc.
    + cbn [List.length]. lia.
    + congruence.
    + exact Hexit.
  - injection H as <- <-. exists []. repeat split; auto using set_obstacles_nil.
    cbn [List.length]. lia.
Qed.

(** More fuel does not change what the loop returns. *)
Lemma spawnLoop_more_fuel (fuel : nat) (rw : number) :
  forall (s : LaneRunnerSim) (g : Rng) r,
    spawnLoop fuel rw s g = Some r ->
    forall fuel', (fuel <= fuel')%nat -> spawnLoop fuel' rw s g = Some r.
Proof.
  induction fuel as [| fuel IH]; intros s g r H fuel' Hle; cbn [spawnLoop] in H.
  - destruct fuel'; cbn [spawnLoop];
      destruct (le (spawnCooldownSec s) 0); try discriminate; exact H.
  - destruct fuel' as [| fuel']; [lia |]. cbn [spawnLoop].
    destruct (le (spawnCooldownSec s) 0); [| exact H].
    destruct (spawnIteration rw s g) as [s1 g1].
    apply IH; [exact H | lia].
Qed.

Lemma inject_nat_succ (n : nat) :
  inject_Z (Z.of_nat (S n)) == inject_Z (Z.of_nat n) + 1.
Proof. rewrite Nat2Z.inj_succ. unfold Z.succ. now rewrite inject_Z_plus. Qed.

(** The loop ends as soon as the fuel covers the distance of the cooldown
    to zero, in iterations of at least 85% of the interval. *)
Lemma spawnLoop_total (n : nat) (rw : number) :
  forall (s : LaneRunnerSim) (g : Rng) (i c : Q),
    rng_ok g ->
    spawnIntervalSec s = Fin i -> 0 < i ->
    spawnCooldownSec s = Fin c ->
    0 < c + inject_Z (Z.of_nat n) * (0.85 * i) ->
    exists s' g' c',
      spawnLoop n rw s g = Some (s', g') /\
      spawnCooldownSec s' = Fin c' /\ 0 < c'.
Proof.
  induction n as [| n IH]; intros s g i c Hg Hi Hi0 Hc Hn; cbn [spawnLoop];
    rewrite Hc; destruct (le (Fin c) 0) eqn:E.
  - apply le_Fin in E. change (inject_Z (Z.of_nat 0)) with 0 in Hn. lra.
  - apply le_Fin_false in E. exists s, g, c. auto.
  - destruct (spawnIteration rw s g) as [s1 g1] eqn:It.
    destruct (spawnIteration_effect rw s g) as (o & k & Hs1 & Hg1).
    rewrite It in Hs1, Hg1; fields.
    rewrite Hi, Hc in Hs1. cbn [mul sub add neg] in Hs1.
    destruct (Hg k) as [Hk0 Hk1].
    destruct (jitter_bounds i (draws g k) Hi0 Hk0 Hk1) as [Hlo _].
    rewrite inject_nat_succ in Hn.
    apply (IH s1 g1 i (c + (i + (draws g k * 2 + - 1) * (0.15 * i)))).
    + intros j. rewrite Hg1. apply Hg.
    + rewrite Hs1; fields. exact Hi.
    + exact Hi0.
    + rewrite Hs1; fields. reflexivity.
    + unfold Qminus in Hlo. nra.
  - apply le_Fin_false in E. exists s, g, c. auto.
Qed.

(** Any distance is covered by enough iterations of a positive length. *)
Lemma archimedes (x k : Q) :
  0 < k -> exists n : nat, 0 < x + inject_Z (Z.of_nat n) * k.
Proof.
  intros Hk.
  set (m := Qceiling (- x / k)).
  exists (S (Z.to_nat m)).
  assert (Hm : - x / k <= inject_Z m) by apply Qle_ceiling.
  assert (Hn : inject_Z m <= inject_Z (Z.of_nat (Z.to_nat m))).
  { rewrite <- Zle_Qle. lia. }
  rewrite inject_nat_succ.
  assert (Hx : - x / k * k == - x) by (field; lra).
  nra.
Qed.

End UpdateFacts.

Section UpdateShape.

(** The collision test reads the engine for its lane count only. *)
Lemma hits_lanes (s s' : LaneRunnerSim) (world : World) (o : Obstacle) :
  lanes s' = lanes s -> hits s' world o = hits s world o.
Proof. intros H. unfold hits, getObstacleRect. now rewrite H. Qed.

(** The collision loop reaches its [break] exactly when some obstacle of
    the list overlaps the car. *)
Lemma collides_existsb (s : LaneRunnerSim) (world : World) (os : list Obstacle) :
  collides s (car world) (roadX world) (roadW world) os = existsb (hits s world) os.
Proof.
  induction os as [| o os IH]; cbn [collides existsb]; [reflexivity |].
  fold (hits s world o). destruct (hits s world o); [reflexivity | exact IH].
Qed.


Lemma existsb_same {A : Type} (f h : A -> bool) (l : list A) :
  (forall a, f a = h a) -> existsb f l = existsb h l.
Proof.
  intros E. induction l as [| a l IH]; cbn [existsb]; [reflexivity |].
  now rewrite E, IH.
Qed.

(** The statements of [update] that follow the spawn loop. *)
Lemma updateObstacles_effect (dt : number) (world : World) (s : LaneRunnerSim) :
  let s' := updateObstacles dt world s in
  obstacles s' = filter (kept world) (map (moved s dt) (obstacles s)) /\
  crashed s' = (existsb (hits s world) (obstacles s') || crashed s)%bool /\
  lanes s' = lanes s /\ difficulty s' = difficulty s /\
  timeSec s' = timeSec s /\ distancePx s' = distancePx s /\
  score s' = score s /\ lane s' = lane s /\ pose s' = pose s /\
  poseT s' = poseT s /\ speedPxPerSec s' = speedPxPerSec s /\
  spawnIntervalSec s' = spawnIntervalSec s /\
  spawnCooldownSec s' = spawnCooldownSec s.
Proof.
  unfold updateObstacles; fields.
  set (os := filter _ _).
  set (s2 := set_obstacles _ os).
  assert (Hos : os = filter (kept world) (map (moved s dt) (obstacles s)))
    by reflexivity.
  assert (Hl : lanes s2 = lanes s) by reflexivity.
  rewrite (collides_existsb s2 world).
  rewrite (existsb_same _ _ _ (fun o => hits_lanes s s2 world o Hl)).
  change (obstacles s2) with os.
  destruct (existsb (hits s world) os) eqn:E;
    subst s2; repeat split;
    cbn [crashed obstacles set_crashed set_obstacles]; rewrite ?E; auto.
Qed.

(** A call that the guards of [update] turn away. *)
Lemma update_ignored (fuel : nat) (dtSec : number) (world : World)
  (s : LaneRunnerSim) (g : Rng) :
  crashed s = true \/ negb (isFinite dtSec) || le dtSec 0 = true ->
  update fuel dtSec world s g = Some (s, g).
Proof.
  intros [H | H]; unfold update.
  - now rewrite H.
  - rewrite H. now destruct (crashed s).
Qed.

(** A call that passes the guards is the three parts in a row. *)
Lemma update_effective (fuel : nat) (dtSec : number) (world : World)
  (s : LaneRunnerSim) (g : Rng) :
  crashed s = false ->
  negb (isFinite dtSec) || le dtSec 0 = false ->
  update fuel dtSec world s g =
    match spawnLoop fuel (roadW world) (updateRun (stepOf dtSec) s) g with
    | None => None
    | Some (s1, g1) => Some (updateObstacles (stepOf dtSec) world s1, g1)
    end.
Proof. intros Hc Hd. unfold update. now rewrite Hc, Hd. Qed.

(** Everything that a call passing the guards does, field by field. *)
Lemma update_fields (fuel : nat) (dtSec : number) (world : World)
  (s s' : LaneRunnerSim) (g g' : Rng) :
  crashed s = false ->
  negb (isFinite dtSec) || le dtSec 0 = false ->
  update fuel dtSec world s g = Some (s', g') ->
  let dt := stepOf dtSec in
  let s0 := updateRun dt s in
  timeSec s' = timeSec s0 /\ distancePx s' = distancePx s0 /\
  score s' = score s0 /\ speedPxPerSec s' = speedPxPerSec s0 /\
  spawnIntervalSec s' = spawnIntervalSec s0 /\
  pose s' = pose s0 /\ poseT s' = poseT s0 /\
  lanes s' = lanes s /\ difficulty s' = difficulty s /\ lane s' = lane s /\
  (exists spawned,
      (List.length spawned <= fuel)%nat /\
      obstacles s' =
        filter (kept world) (map (moved s' dt) (obstacles s ++ spawned))) /\
  crashed s' = existsb (hits s' world) (obstacles s') /\
  le (spawnCooldownSec s') 0 = false /\
  draws g' = draws g.
Proof.
  intros Hc Hd H dt s0.
  rewrite (update_effective _ _ _ _ _ Hc Hd) in H.
  fold dt in H. fold s0 in H.
  destruct (spawnLoop fuel (roadW world) s0 g) as [[s1 g1] |] eqn:L;
    [| discriminate].
  injection H as <- <-.
  apply spawnLoop_frame in L.
  destruct L as (spawned & Hs1 & Hlen & Hg & Hexit).
  destruct (updateObstacles_effect dt world s1)
    as (Ho & Hcr & Hl & Hdf & Ht & Hx & Hsc & Hla & Hp & Hpt & Hv & Hi & Hcd).
  destruct (updateRun_counters dt s)
    as (_ & _ & _ & _ & _ & _ & Hl0 & Hdf0 & Hla0 & Hcr0 & Hos0).
  fold s0 in Hl0, Hdf0, Hla0, Hcr0, Hos0.
  assert (F : lanes s1 = lanes s0 /\ difficulty s1 = difficulty s0 /\
              timeSec s1 = timeSec s0 /\ distancePx s1 = distancePx s0 /\
              score s1 = score s0 /\ lane s1 = lane s0 /\ pose s1 = pose s0 /\
              poseT s1 = poseT s0 /\ speedPxPerSec s1 = speedPxPerSec s0 /\
              spawnIntervalSec s1 = spawnIntervalSec s0 /\
              crashed s1 = crashed s0 /\
              obstacles s1 = obstacles s0 ++ spawned).
  { rewrite Hs1. fields. repeat split; reflexivity. }
  destruct F as (F1 & F2 & F3 & F4 & F5 & F6 & F7 & F8 & F9 & F10 & F11 & F12).
  repeat split; try congruence.
  - exists spawned. split; [exact Hlen |].
    rewrite Ho, F12, Hos0. apply f_equal. apply map_ext.
    intros o. unfold moved. now rewrite Hv.
  - rewrite Hcr, F11, Hcr0, Hc, orb_false_r.
    apply existsb_same. intros o. symmetry. now apply hits_lanes.
Qed.

End UpdateShape.

Section Invariants.

(** The cooldown that the loop leaves is finite and positive, whatever
    fuel the loop was given. *)
Lemma spawnLoop_cooldown (fuel : nat) (rw : number) (s s' : LaneRunnerSim)
  (g g' : Rng) (i c : Q) :
  rng_ok g ->
  spawnIntervalSec s = Fin i -> 0 < i ->
  spawnCooldownSec s = Fin c ->
  spawnLoop fuel rw s g = Some (s', g') ->
  exists c', spawnCooldownSec s' = Fin c' /\ 0 < c'.
Proof.
  intros Hg Hi Hi0 Hc H.
  assert (Hk : 0 < 0.85 * i) by lra.
  destruct (archimedes c (0.85 * i) Hk) as [n Hn].
  destruct (spawnLoop_total n rw s g i c Hg Hi Hi0 Hc Hn)
    as (s2 & g2 & c2 & H2 & Hc2 & Hpos).
  pose proof (spawnLoop_more_fuel _ _ _ _ _ H (Nat.max fuel n)
                (Nat.le_max_l fuel n)) as H'.
  pose proof (spawnLoop_more_fuel _ _ _ _ _ H2 (Nat.max fuel n)
                (Nat.le_max_r fuel n)) as H2'.
  rewrite H' in H2'. injection H2' as -> ->.
  exists c2. auto.
Qed.

Lemma perform_same_run (c : Command) (s : LaneRunnerSim) :
  same_run s (perform c s).
Proof.
  unfold same_run.
  destruct c; cbn [perform]; unfold moveLeft, moveRight, moveToLane, jump, slide;
    try (destruct (pose s)); fields; repeat split; reflexivity.
Qed.

Lemma perform_wellformed (c : Command) (s : LaneRunnerSim) :
  wellformed s -> wellformed (perform c s).
Proof.
  intros (t & x & sc & v & i & cd & p & Ht & Hx & Hsc & Hv & Hi & Hcd & Hp & B).
  destruct (perform_same_run c s)
    as (_ & _ & E1 & E2 & E3 & E4 & E5 & E6 & _ & _).
  assert (P : exists p', poseT (perform c s) = Fin p' /\ 0 <= p').
  { destruct c; cbn [perform]; unfold moveLeft, moveRight, moveToLane, jump, slide;
      try (destruct (pose s)); fields;
      try (exists p; split; [exact Hp | tauto]);
      (exists 0; split; [reflexivity | lra]). }
  destruct P as (p' & Hp' & Hp0).
  exists t, x, sc, v, i, cd, p'.
  rewrite E1, E2, E3, E4, E5, E6. tauto.
Qed.

(** One [update] keeps a well-formed state well-formed, and moves the
    counters one way only. *)
Lemma update_progress (fuel : nat) (dtSec : number) (world : World)
  (s s' : LaneRunnerSim) (g g' : Rng) :
  wellformed s -> rng_ok g ->
  update fuel dtSec world s g = Some (s', g') ->
  wellformed s' /\
  le (speedPxPerSec s) (speedPxPerSec s') = true /\
  le (score s) (score s') = true /\
  le (timeSec s) (timeSec s') = true /\
  (floored s ->
   floored s' /\ le (spawnIntervalSec s') (spawnIntervalSec s) = true).
Proof.
  intros W Hg H.
  assert (Same : s' = s -> wellformed s' /\
    le (speedPxPerSec s) (speedPxPerSec s') = true /\
    le (score s) (score s') = true /\
    le (timeSec s) (timeSec s') = true /\
    (floored s ->
     floored s' /\ le (spawnIntervalSec s') (spawnIntervalSec s) = true)).
  { intros ->. split; [exact W |].
    destruct W as (t & x & sc & v & i & cd & p & Ht & Hx & Hsc & Hv & Hi & _).
    rewrite Ht, Hsc, Hv, Hi.
    repeat split; try (apply le_Fin; lra); auto. }
  destruct (crashed s) eqn:Hc.
  { rewrite update_ignored in H by auto. injection H as <- <-. auto. }
  destruct (negb (isFinite dtSec) || le dtSec 0) eqn:Hd.
  { rewrite update_ignored in H by auto. injection H as <- <-. auto. }
  clear Same.
  destruct (guard_passes dtSec Hd) as (d & -> & Hd0).
  destruct (stepOf_Fin d Hd0) as (d' & Hstep & Hd'0 & Hd'1 & _).
  pose proof (update_fields _ _ _ _ _ _ _ Hc Hd H) as F. cbv zeta in F.
  rewrite (update_effective _ _ _ _ _ Hc Hd) in H.
  rewrite Hstep in F, H.
  destruct F as (F1 & F2 & F3 & F4 & F5 & F6 & F7 & _).
  destruct (updateRun_counters (Fin d') s)
    as (R1 & R2 & R3 & R4 & R5 & R6 & _).
  pose proof (updateRun_pose (Fin d') s) as RP. cbv zeta in RP.
  destruct W as (t & x & sc & v & i & cd & p & Ht & Hx & Hsc & Hv & Hi & Hcd
                 & Hp & Bt & Bx & Bsc & Bv & Bi & Bp).
  rewrite Ht, Hx, Hv, Hi, Hcd in *.
  rewrite R1, R2 in R3. cbn [add mul sub neg] in R1, R2, R3, R4, R5, R6.
  change (div (Fin (x + v * d')) 18) with (Fin ((x + v * d') / 18)) in R3.
  cbn [add] in R3.
  destruct (max_Fin 0.25 (i * (1 + - (0.01 * d')))) as (z & Hz & Hz1 & Hz2 & Hz3).
  rewrite Hz in R5.
  destruct (spawnLoop fuel (roadW world) (updateRun (Fin d') s) g)
    as [[s1 g1] |] eqn:L; [| discriminate].
  injection H as <- <-.
  assert (Hz0 : 0 < z) by lra.
  destruct (spawnLoop_cooldown _ _ _ _ _ _ z _ Hg R5 Hz0 R6 L) as (c' & Hc' & Hc'0).
  destruct (updateObstacles_effect (Fin d') world s1)
    as (_ & _ & _ & _ & _ & _ & _ & _ & _ & _ & _ & _ & Ecd).
  assert (P : exists p', poseT (updateRun (Fin d') s) = Fin p' /\ 0 <= p').
  { rewrite Hp in RP. cbn [add] in RP.
    destruct (pose_eqb (pose s) normal).
    - exists p. destruct RP as [_ ->]. auto.
    - destruct (ge (Fin (p + d')) (duration (pose s))).
      + exists 0. destruct RP as [_ ->]. split; [reflexivity | lra].
      + exists (p + d'). destruct RP as [_ ->]. split; [reflexivity | lra]. }
  destruct P as (p' & Hp' & Hp'0).
  assert (Bvd : 0 <= v * d') by (apply Qmult_le_0_compat; lra).
  split; [| repeat split].
  - exists (t + d'), (x + v * d'), ((t + d') * 12 + (x + v * d') / 18),
      (v * (1 + 0.005 * d')), z, c', p'.
    rewrite F1, F2, F3, F4, F5, F7, Ecd.
    repeat split; try assumption; try reflexivity; try lra.
    all: apply Qmult_le_0_compat; lra.
  - rewrite F4, R4. apply le_Fin. nra.
  - rewrite Hsc, F3, R3. apply le_Fin. rewrite Bsc.
    generalize dependent (v * d'). intros vd _ _ Bvd.
    assert (E18 : (x + vd) / 18 == x / 18 + vd / 18) by field.
    assert (B18 : 0 <= vd / 18) by (apply Qle_shift_div_l; lra).
    rewrite E18. generalize dependent (vd / 18). generalize (x / 18).
    intros; lra.
  - rewrite F1, R1. apply le_Fin. lra.
  - exists z. rewrite F5. auto.
  - destruct H as (i0 & Hi0 & Bi0). rewrite Hi in Hi0. injection Hi0 as <-.
    rewrite F5, R5. apply le_Fin.
    destruct Hz3 as [-> | ->]; [exact Bi0 | nra].
Qed.

Lemma step_progress (s s' : LaneRunnerSim) :
  step s s' -> wellformed s ->
  wellformed s' /\
  le (speedPxPerSec s) (speedPxPerSec s') = true /\
  le (score s) (score s') = true /\
  le (timeSec s) (timeSec s') = true /\
  (floored s ->
   floored s' /\ le (spawnIntervalSec s') (spawnIntervalSec s) = true).
Proof.
  intros [c s0 | fuel dtSec world s0 s1 g g' Hg H] W.
  - split; [now apply perform_wellformed |].
    destruct (perform_same_run c s0)
      as (_ & _ & E1 & _ & E3 & E4 & E5 & _).
    destruct W as (t & x & sc & v & i & cd & p & Ht & Hx & Hsc & Hv & Hi & _).
    rewrite E1, E3, E4, E5, Ht, Hsc, Hv, Hi.
    repeat split; try (apply le_Fin; lra).
    + destruct H as (i0 & Hi0 & Bi0). exists i0. rewrite E5. auto.
  - eapply update_progress; eauto.
Qed.

(** The order of finite numbers composes. *)
Lemma le_trans_fin (a b c : number) :
  isFinite b = true -> le a b = true -> le b c = true -> le a c = true.
Proof.
  destruct a as [x | | |], b as [y | | |], c as [z | | |];
    try discriminate; try reflexivity; intros _ H1 H2.
  apply le_Fin in H1. apply le_Fin in H2. apply le_Fin. lra.
Qed.

Lemma steps_progress (s s' : LaneRunnerSim) :
  steps s s' -> wellformed s ->
  wellformed s' /\
  le (speedPxPerSec s) (speedPxPerSec s') = true /\
  le (score s) (score s') = true /\
  le (timeSec s) (timeSec s') = true /\
  (floored s ->
   floored s' /\ le (spawnIntervalSec s') (spawnIntervalSec s) = true).
Proof.
  induction 1 as [s | s s1 s2 H1 H2 IH]; intros W.
  - split; [exact W |].
    destruct W as (t & x & sc & v & i & cd & p & Ht & Hx & Hsc & Hv & Hi & _).
    rewrite Ht, Hsc, Hv, Hi.
    repeat split; try (apply le_Fin; lra); auto.
  - destruct (step_progress _ _ H1 W) as (W1 & A1 & A2 & A3 & A4).
    destruct (IH W1) as (W2 & B1 & B2 & B3 & B4).
    pose proof W1 as (t & x & sc & v & i & cd & p & Ht & Hx & Hsc & Hv & Hi & _).
    split; [exact W2 |]. repeat split.
    + apply (le_trans_fin _ (speedPxPerSec s1)); auto. now rewrite Hv.
    + apply (le_trans_fin _ (score s1)); auto. now rewrite Hsc.
    + apply (le_trans_fin _ (timeSec s1)); auto. now rewrite Ht.
    + apply B4. now apply A4.
    + destruct (A4 H) as [Fl A5]. destruct (B4 Fl) as [_ B5].
      apply (le_trans_fin _ (spawnIntervalSec s1)); auto. now rewrite Hi.
Qed.

(** A configuration of finite values in range starts the engine in a
    well-formed state. *)
Lemma new_wellformed (cfg : SimConfig) (v i : Q) :
  initialSpeedPxPerSec (cfg_difficulty cfg) = Fin v -> 0 <= v ->
  initialSpawnIntervalSec (cfg_difficulty cfg) = Fin i -> 0 < i ->
  wellformed (new cfg).
Proof.
  intros Hv Bv Hi Bi.
  exists 0, 0, 0, v, i, i, 0. cbn [new timeSec distancePx score speedPxPerSec
    spawnIntervalSec spawnCooldownSec poseT].
  repeat split; auto; lra.
Qed.

(** A call to [update] returns, given fuel enough, when the spawn interval
    and the cooldown are finite; the result is the same for any more fuel,
    and its interval and cooldown are finite again. *)
Lemma update_total (dtSec : number) (world : World) (s : LaneRunnerSim)
  (g : Rng) (i c : Q) :
  rng_ok g ->
  spawnIntervalSec s = Fin i ->
  spawnCooldownSec s = Fin c ->
  exists fuel0 s' g',
    (forall fuel, (fuel0 <= fuel)%nat ->
                  update fuel dtSec world s g = Some (s', g')) /\
    rng_ok g' /\
    (exists i', spawnIntervalSec s' = Fin i') /\
    (exists c', spawnCooldownSec s' = Fin c').
Proof.
  intros Hg Hi Hc.
  assert (Same : crashed s = true \/ negb (isFinite dtSec) || le dtSec 0 = true ->
    exists fuel0 s' g',
      (forall fuel, (fuel0 <= fuel)%nat ->
                    update fuel dtSec world s g = Some (s', g')) /\
      rng_ok g' /\
      (exists i', spawnIntervalSec s' = Fin i') /\
      (exists c', spawnCooldownSec s' = Fin c')).
  { intros H. exists O, s, g.
    split; [intros fuel _; now apply update_ignored |].
    split; [exact Hg |]. split; eauto. }
  destruct (crashed s) eqn:Hcr; [auto |].
  destruct (negb (isFinite dtSec) || le dtSec 0) eqn:Hd; [auto |].
  clear Same.
  destruct (guard_passes dtSec Hd) as (d & -> & Hd0).
  destruct (stepOf_Fin d Hd0) as (d' & Hstep & Hd'0 & Hd'1 & _).
  destruct (updateRun_counters (Fin d') s)
    as (_ & _ & _ & _ & R5 & R6 & _).
  rewrite Hi in R5. rewrite Hc in R6. cbn [add mul sub neg] in R5, R6.
  destruct (max_Fin 0.25 (i * (1 + - (0.01 * d')))) as (z & Hz & Hz1 & _).
  rewrite Hz in R5.
  assert (Hk : 0 < 0.85 * z) by lra.
  destruct (archimedes (c + - d') (0.85 * z) Hk) as [n Hn].
  assert (Hz0 : 0 < z) by lra.
  destruct (spawnLoop_total n (roadW world) _ g z _ Hg R5 Hz0 R6 Hn)
    as (s1 & g1 & c1 & L & Hc1 & Hc1pos).
  destruct (spawnLoop_frame _ _ _ _ _ _ L) as (spawned & Hs1 & _ & Hg1 & _).
  destruct (updateObstacles_effect (Fin d') world s1)
    as (_ & _ & _ & _ & _ & _ & _ & _ & _ & _ & _ & Ei & Ecd).
  exists n, (updateObstacles (Fin d') world s1), g1. repeat split.
  - intros fuel Hfuel. rewrite (update_effective _ _ _ _ _ Hcr Hd), Hstep.
    now rewrite (spawnLoop_more_fuel _ _ _ _ _ L fuel Hfuel).
  - rewrite Hg1. apply Hg.
  - rewrite Hg1. apply Hg.
  - exists z. rewrite Ei, Hs1. fields. exact R5.
  - exists c1. now rewrite Ecd.
Qed.

(** A run of [update] calls returns, given fuel enough. *)
Lemma updates_total (calls : list (number * World)) :
  forall (s : LaneRunnerSim) (g : Rng) (i c : Q),
    rng_ok g ->
    spawnIntervalSec s = Fin i ->
    spawnCooldownSec s = Fin c ->
    exists fuel0 s' g',
      forall fuel, (fuel0 <= fuel)%nat ->
                   updates fuel calls s g = Some (s', g').
Proof.
  induction calls as [| [dtSec world] calls IH]; intros s g i c Hg Hi Hc.
  - exists O, s, g. reflexivity.
  - destruct (update_total dtSec world s g i c Hg Hi Hc)
      as (n1 & s1 & g1 & H1 & Hg1 & (i1 & Hi1) & (c1 & Hc1)).
    destruct (IH s1 g1 i1 c1 Hg1 Hi1 Hc1) as (n2 & s2 & g2 & H2).
    exists (Nat.max n1 n2), s2, g2. intros fuel Hfuel. cbn [updates].
    rewrite H1 by lia. apply H2. lia.
Qed.

End Invariants.

Section PoseFacts.

(** More fuel does not change what [update] returns. *)
Lemma update_more_fuel (fuel fuel' : nat) (dtSec : number) (world : World)
  (s : LaneRunnerSim) (g : Rng) r :
  update fuel dtSec world s g = Some r -> (fuel <= fuel')%nat ->
  update fuel' dtSec world s g = Some r.
Proof.
  unfold update. intros H Hle.
  destruct (crashed s); [exact H |].
  destruct (negb (isFinite dtSec) || le dtSec 0); [exact H |].
  destruct (spawnLoop fuel _ _ _) as [r1 |] eqn:L; [| discriminate].
  now rewrite (spawnLoop_more_fuel _ _ _ _ _ L fuel' Hle).
Qed.

(** A call on the engine either leaves it alone or accrues the clamped
    step in the pose block. *)
Lemma update_pose_step (fuel : nat) (dtSec : number) (world : World)
  (s s' : LaneRunnerSim) (g g' : Rng) :
  update fuel dtSec world s g = Some (s', g') ->
  (s' = s /\ (crashed s = true \/ negb (isFinite dtSec) || le dtSec 0 = true)) \/
  (crashed s = false /\
   exists d d', dtSec = Fin d /\ 0 < d /\ stepOf dtSec = Fin d' /\ 0 < d' /\
     pose s' = pose (updateRun (Fin d') s) /\
     poseT s' = poseT (updateRun (Fin d') s)).
Proof.
  intros H.
  destruct (crashed s) eqn:Hc.
  { rewrite update_ignored in H by auto. injection H as <- <-. auto. }
  destruct (negb (isFinite dtSec) || le dtSec 0) eqn:Hd.
  { rewrite update_ignored in H by auto. injection H as <- <-. auto. }
  right. split; [reflexivity |].
  destruct (guard_passes dtSec Hd) as (d & -> & Hd0).
  destruct (stepOf_Fin d Hd0) as (d' & Hstep & Hd'0 & _).
  pose proof (update_fields _ _ _ _ _ _ _ Hc Hd H) as F. cbv zeta in F.
  rewrite Hstep in F. destruct F as (_ & _ & _ & _ & _ & F6 & F7 & _).
  exists d, d'. tauto.
Qed.

(** Nothing happens to a crashed engine in a run of [update] calls. *)
Lemma updates_crashed (fuel : nat) (calls : list (number * World))
  (s : LaneRunnerSim) (g : Rng) :
  crashed s = true -> updates fuel calls s g = Some (s, g).
Proof.
  intros H. induction calls as [| [dtSec world] calls IH]; cbn [updates];
    [reflexivity |].
  rewrite update_ignored by auto. exact IH.
Qed.

(** The pose normal lasts through any run of [update] calls. *)
Lemma normal_lasts (fuel : nat) (calls : list (number * World)) :
  forall (s s' : LaneRunnerSim) (g g' : Rng),
    updates fuel calls s g = Some (s', g') ->
    pose s = normal -> pose s' = normal /\ poseT s' = poseT s.
Proof.
  induction calls as [| [dtSec world] calls IH]; intros s s' g g' H Hn;
    cbn [updates] in H.
  - injection H as <- <-. auto.
  - destruct (update fuel dtSec world s g) as [[s1 g1] |] eqn:U; [| discriminate].
    apply update_pose_step in U.
    destruct U as [[-> _] | (_ & d & d' & _ & _ & _ & _ & Ep & Et)];
      [eapply IH; eauto |].
    pose proof (updateRun_pose (Fin d') s) as RP. cbv zeta in RP.
    rewrite Hn in RP. cbn [pose_eqb] in RP. destruct RP as [P1 P2].
    destruct (IH _ _ _ _ H) as [Q1 Q2]; [congruence |].
    split; congruence.
Qed.

End PoseFacts.
(* ================================================================== *)
(** ** Facts about the engine on binary64 numbers *)

Section Binary64Facts.

Import F64.


(** The literals of the source as binary64 numbers, mantissa and exponent:
    0.6 is 0x1.3333333333333p-1, 0.05 is 0x1.999999999999ap-5, and so on. *)
Example literals_f64 :
  dec 0.6 = S754_finite false 5404319552844595 (-53) /\
  dec 0.75 = S754_finite false 6755399441055744 (-53) /\
  dec 0.05 = S754_finite false 7205759403792794 (-57) /\
  dec 0.25 = S754_finite false 4503599627370496 (-54) /\
  dec 0.15 = S754_finite false 5404319552844595 (-55) /\
  dec 0.58 = S754_finite false 5224175567749775 (-53) /\
  dec 0.005 = S754_finite false 5764607523034235 (-60) /\
  dec 0.01 = S754_finite false 5764607523034235 (-59) /\
  ofZ 220 = S754_finite false 7740561859543040 (-45) /\
  dec 0.0 = S754_zero false.
Proof. repeat split. Qed.

(** [Math.floor] on some numbers: 57.5, 57.99999999999999 (which is
    400 / 4 * 0.58), 0.5, -0.5, -3, -3.25, and the special values. *)
Example floor_f64 :
  floor (dec 57.5) = ofZ 57 /\
  floor (mul (div (ofZ 400) (ofZ 4)) (dec 0.58)) = ofZ 57 /\
  floor (dec 0.5) = S754_zero false /\
  floor (dec (-0.5)) = ofZ (-1) /\
  floor (ofZ (-3)) = ofZ (-3) /\
  floor (dec (-3.25)) = ofZ (-4) /\
  floor (S754_zero true) = S754_zero true /\
  floor (S754_infinity false) = S754_infinity false /\
  floor S754_nan = S754_nan.
Proof. repeat split. Qed.







(** One iteration of the loop: one more obstacle, the cooldown put
    forward by the interval and a jitter made from the fifth draw. *)
Lemma spawnIteration_f64 (w : number) (s : LaneRunnerSim) (g : Rng) :
  exists o,
    fst (spawnIteration w s g) =
      set_spawnCooldownSec (set_obstacles s (obstacles s ++ [o]))
        (add (spawnCooldownSec s)
             (add (spawnIntervalSec s)
                  (mul (sub (mul (draws g (4 + cursor g)) (ofZ 2)) (ofZ 1))
                       (mul (dec 0.15) (spawnIntervalSec s))))) /\
    snd (spawnIteration w s g) = mkRng (draws g) (5 + cursor g).
Proof.
  cbv [spawnIteration spawnObstacle makeId Math_random]; F64.fields.
  cbn [draws cursor]. eexists. split; reflexivity.
Qed.
















(** With the spawn interval at 0.25 and the cooldown at -10^17, and a
    generator that always draws 1/2, an iteration of the loop leaves the
    cooldown where it is: the 0.25 it adds is less than half a unit in
    the last place of 10^17. *)
Lemma far_iteration (w : number) (s : LaneRunnerSim) (c : nat) :
  spawnIntervalSec s = dec 0.25 ->
  spawnCooldownSec s = ofZ (-100000000000000000) ->
  let r := spawnIteration w s (mkRng (fun _ => dec 0.5) c) in
  spawnIntervalSec (fst r) = dec 0.25 /\
  spawnCooldownSec (fst r) = ofZ (-100000000000000000) /\
  snd r = mkRng (fun _ => dec 0.5) (5 + c).
Proof.
  intros Hi Hc r. subst r.
  destruct (spawnIteration_f64 w s (mkRng (fun _ => dec 0.5) c)) as (o & E & G).
  rewrite E, G; F64.fields. cbn [draws cursor]. rewrite Hi, Hc.
  repeat split.
Qed.

Lemma far_loop (fuel : nat) (w : number) :
  forall (s : LaneRunnerSim) (c : nat),
    spawnIntervalSec s = dec 0.25 ->
    spawnCooldownSec s = ofZ (-100000000000000000) ->
    spawnLoop fuel w s (mkRng (fun _ => dec 0.5) c) = None.
Proof.
  induction fuel as [| fuel IH]; intros s c Hi Hc; cbn [spawnLoop];
    rewrite Hc; change (le (ofZ (-100000000000000000)) (ofZ 0)) with true;
    cbv iota; [reflexivity |].
  destruct (far_iteration w s c Hi Hc) as (I & C & G).
  destruct (spawnIteration w s (mkRng (fun _ : nat => dec 0.5) c)) as [s1 g1].
  cbn [fst snd] in I, C, G. subst g1. now apply IH.
Qed.

End Binary64Facts.

(* ================================================================== *)
(** ** The spawn loop, iteration by iteration *)

Section LoopFacts.

Lemma spawnIterations_S (n : nat) (w : number) (s : LaneRunnerSim) (g : Rng) :
  spawnIterations (S n) w s g =
  spawnIterations n w (fst (spawnIteration w s g)) (snd (spawnIteration w s g)).
Proof. cbn [spawnIterations]. now destruct (spawnIteration w s g). Qed.

(** What [n] iterations write: [n] obstacles after the ones there are, the
    cooldown, and five draws each. *)
Lemma spawnIterations_frame (n : nat) (w : number) :
  forall (s : LaneRunnerSim) (g : Rng),
    let r := spawnIterations n w s g in
    exists spawned,
      fst r = set_spawnCooldownSec (set_obstacles s (obstacles s ++ spawned))
                (spawnCooldownSec (fst r)) /\
      List.length spawned = n /\
      draws (snd r) = draws g.
Proof.
  induction n as [| n IH]; intros s g r; subst r.
  - exists []. cbn [spawnIterations fst snd List.length].
    repeat split. apply set_obstacles_nil.
  - rewrite spawnIterations_S.
    destruct (spawnIteration_effect w s g) as (o & k & Hs1 & Hg1).
    destruct (IH (fst (spawnIteration w s g)) (snd (spawnIteration w s g)))
      as (spawned & E & L & D).
    exists (o :: spawned). repeat split.
    + rewrite E at 1. rewrite Hs1. destruct s; fields.
      now rewrite <- app_assoc.
    + cbn [List.length]. now rewrite L.
    + now rewrite D.
Qed.

(** The loop on a finite cooldown and a finite positive interval: it runs
    the body as long as the cooldown is at or below zero and no longer, and
    that is [n] times for an [n] within any bound [m] that takes the
    cooldown above zero in steps of 85% of the interval. *)
Lemma spawnLoop_runs (m : nat) (w : number) :
  forall (s : LaneRunnerSim) (g : Rng) (i c : Q),
    rng_ok g ->
    spawnIntervalSec s = Fin i -> 0 < i ->
    spawnCooldownSec s = Fin c ->
    0 < c + inject_Z (Z.of_nat m) * (0.85 * i) ->
    exists n,
      (n <= m)%nat /\
      (forall k, (k < n)%nat ->
         le (spawnCooldownSec (fst (spawnIterations k w s g))) 0 = true) /\
      gt (spawnCooldownSec (fst (spawnIterations n w s g))) 0 = true /\
      (forall fuel, (n <= fuel)%nat ->
         spawnLoop fuel w s g = Some (spawnIterations n w s g)) /\
      (forall fuel, (fuel < n)%nat -> spawnLoop fuel w s g = None).
Proof.
  induction m as [| m IH]; intros s g i c Hg Hi Hi0 Hc Hm.
  - change (inject_Z (Z.of_nat 0)) with 0 in Hm.
    exists O. split; [lia |]. split; [intros k Hk; lia |].
    cbn [spawnIterations fst]. rewrite Hc.
    split; [apply gt_Fin; lra |].
    split; [| intros fuel Hf; lia].
    intros fuel _. destruct fuel; cbn [spawnLoop]; rewrite Hc;
      replace (le (Fin c) 0) with false; try reflexivity;
      symmetry; apply le_Fin_false; lra.
  - destruct (le (Fin c) 0) eqn:E.
    + destruct (spawnIteration_effect w s g) as (o & k & Hs1 & Hg1).
      rewrite Hi, Hc in Hs1. cbn [mul sub add neg] in Hs1.
      destruct (Hg k) as [Hk0 Hk1].
      destruct (jitter_bounds i (draws g k) Hi0 Hk0 Hk1) as [Hlo _].
      rewrite inject_nat_succ in Hm.
      destruct (IH (fst (spawnIteration w s g)) (snd (spawnIteration w s g)) i
                   (c + (i + (draws g k * 2 + - 1) * (0.15 * i))))
        as (n & Hn & Hbefore & Hafter & Hret & Hnone).
      * intros j. rewrite Hg1. apply Hg.
      * rewrite Hs1; fields. exact Hi.
      * exact Hi0.
      * rewrite Hs1; fields. reflexivity.
      * unfold Qminus in Hlo. nra.
      * exists (S n). split; [lia |]. split; [| split; [| split]].
        -- intros [| j] Hj.
           ++ cbn [spawnIterations fst]. now rewrite Hc.
           ++ rewrite spawnIterations_S. apply Hbefore. lia.
        -- rewrite spawnIterations_S. exact Hafter.
        -- intros [| fuel] Hf; [lia |].
           cbn [spawnLoop]. rewrite Hc, E. rewrite spawnIterations_S.
           destruct (spawnIteration w s g) as [s1 g1]. cbn [fst snd] in *.
           apply Hret. lia.
        -- intros [| fuel] Hf.
           ++ cbn [spawnLoop]. now rewrite Hc, E.
           ++ cbn [spawnLoop]. rewrite Hc, E.
              destruct (spawnIteration w s g) as [s1 g1]. cbn [fst snd] in *.
              apply Hnone. lia.
    + apply le_Fin_false in E.
      exists O. split; [lia |]. split; [intros k Hk; lia |].
      cbn [spawnIterations fst]. rewrite Hc.
      split; [apply gt_Fin; lra |].
      split; [| intros fuel Hf; lia].
      intros fuel _. destruct fuel; cbn [spawnLoop]; rewrite Hc;
        replace (le (Fin c) 0) with false; try reflexivity;
        symmetry; apply le_Fin_false; lra.
Qed.

(** With the spawn interval at a finite number and the cooldown at
    -Infinity, the loop never ends: an iteration adds a finite number. *)
Lemma endless_loop (fuel : nat) (w : number) :
  forall (s : LaneRunnerSim) (g : Rng) (i : Q),
    spawnIntervalSec s = Fin i ->
    spawnCooldownSec s = NegInf ->
    spawnLoop fuel w s g = None.
Proof.
  induction fuel as [| fuel IH]; intros s g i Hi Hc; cbn [spawnLoop];
    rewrite Hc; cbn [le compare]; [reflexivity |].
  destruct (spawnIteration_effect w s g) as (o & k & Hs1 & _).
  destruct (spawnIteration w s g) as [s1 g1]. cbn [fst] in Hs1.
  apply (IH s1 g1 i); rewrite Hs1; fields; [exact Hi |].
  rewrite Hi, Hc. reflexivity.
Qed.

End LoopFacts.

(* ================================================================== *)
(** ** Construction *)

(** The sample world of the examples, in numbers. *)
Example world900_car :
  eqb (roadX world900) 72 = true /\ eqb (roadW world900) 756 = true /\
  eqb (rx (car world900)) 302.58 = true /\ eqb (ry (car world900)) 482 = true /\
  eqb (rw (car world900)) 105.84 = true /\ eqb (rh (car world900)) 46 = true.
Proof. repeat split. Qed.

(** C3, as the specification states it, fails: on four lanes the player
    does not start in lane 2. *)
Lemma new_lane_is_not_2 : eqb (lane (new easy4)) 2 = false.
Proof. reflexivity. Qed.

(** C3, amended: construction from a configuration with four lanes puts
    the player in lane 1, the second of the four and within them, pose
    normal, with elapsed time, distance and score zero, speed and spawn
    interval the initial values of the configuration, the spawn cooldown
    equal to the initial spawn interval, crashed false and no obstacle. *)
Theorem constructor_initial_state (cfg : SimConfig) :
  cfg_lanes cfg = 4%Z ->
  let s := new cfg in
  lanes s = 4%Z /\
  lane s = 1 /\ in_range s /\ pose s = normal /\ poseT s = 0 /\
  timeSec s = 0 /\ distancePx s = 0 /\ score s = 0 /\
  speedPxPerSec s = initialSpeedPxPerSec (cfg_difficulty cfg) /\
  spawnIntervalSec s = initialSpawnIntervalSec (cfg_difficulty cfg) /\
  spawnCooldownSec s = initialSpawnIntervalSec (cfg_difficulty cfg) /\
  crashed s = false /\ obstacles s = [].
Proof.
  intros H4. cbv zeta. unfold in_range, new; fields. rewrite H4.
  split; [reflexivity |]. split; [reflexivity |].
  split; [exists 1; repeat split; discriminate |].
  repeat split.
Qed.

Lemma constructor_initial_state_witness :
  lanes (new easy4) = 4%Z /\ lane (new easy4) = 1 /\ in_range (new easy4) /\
  pose (new easy4) = normal /\ crashed (new easy4) = false /\
  obstacles (new easy4) = [].
Proof.
  destruct (constructor_initial_state easy4 eq_refl)
    as (A & B & C & D & _ & _ & _ & _ & _ & _ & _ & E & F).
  split; [exact A |]. split; [exact B |]. split; [exact C |].
  split; [exact D |]. split; [exact E | exact F].
Defined.

(* ================================================================== *)
(** ** The commands *)

(** C9: in pose jumping or sliding, [jump] and [slide] return the engine as
    it is, every field included; from pose normal, [jump] sets the pose to
    jumping and [slide] to sliding, each with the pose time back to 0; and
    neither ever writes the lane, a run counter, the obstacles or the
    crashed flag. *)
Theorem pose_commands (s : LaneRunnerSim) :
  (pose s <> normal -> jump s = s /\ slide s = s) /\
  (pose s = normal ->
   pose (jump s) = jumping /\ poseT (jump s) = 0 /\
   pose (slide s) = sliding /\ poseT (slide s) = 0) /\
  same_run s (jump s) /\ same_run s (slide s) /\
  lane (jump s) = lane s /\ lane (slide s) = lane s.
Proof.
  unfold same_run, jump, slide.
  destruct s as [? ? ? ? ? ? p ? ? ? ? ? ?]; fields.
  destruct p; fields; repeat split; try reflexivity; try congruence;
    intros H; try discriminate; exfalso; now apply H.
Qed.

Lemma pose_commands_witness :
  jump (jump (new easy4)) = jump (new easy4) /\
  slide (jump (new easy4)) = jump (new easy4) /\
  pose (jump (new easy4)) = jumping /\ poseT (jump (new easy4)) = 0 /\
  pose (slide (new easy4)) = sliding /\ poseT (slide (new easy4)) = 0.
Proof.
  destruct (pose_commands (jump (new easy4))) as (A & _).
  destruct (pose_commands (new easy4)) as (_ & B & _).
  destruct A as [A1 A2]; [discriminate |].
  destruct B as (B1 & B2 & B3 & B4); [reflexivity |].
  exact (conj A1 (conj A2 (conj B1 (conj B2 (conj B3 B4))))).
Defined.

(** C4 fails on the code: [moveToLane] lets NaN through its clamp, the lane
    index becomes NaN, which is not within the lanes, and no later move
    brings it back. *)
Theorem moveToLane_NaN :
  lane (moveToLane NaN (new easy4)) = NaN /\
  le 0 (lane (moveToLane NaN (new easy4))) = false /\
  lt (lane (moveToLane NaN (new easy4))) (ofZ (lanes (new easy4))) = false /\
  lane (moveLeft (moveToLane NaN (new easy4))) = NaN /\
  lane (moveRight (moveToLane NaN (new easy4))) = NaN.
Proof. repeat split. Qed.

Section LaneRange.

Variable s : LaneRunnerSim.
Hypothesis some_lane : (1 <= lanes s)%Z.

Lemma lastLane_bounds : 0 <= lastLane s /\ lastLane s < inject_Z (lanes s).
Proof.
  unfold lastLane. assert (H : inject_Z 1 <= inject_Z (lanes s))
    by (rewrite <- Zle_Qle; exact some_lane).
  change (inject_Z 1) with 1 in H. split; lra.
Qed.

(** The clamp of any number but NaN is within the lanes. *)
Lemma clamp_in_lanes (n : number) :
  n <> NaN ->
  exists q, clamp n 0 (sub (ofZ (lanes s)) 1) = Fin q /\
            0 <= q /\ q < inject_Z (lanes s).
Proof.
  intros Hn. destruct lastLane_bounds as [T0 T1].
  unfold clamp, ofZ. cbn [sub neg add]. fold (lastLane s).
  destruct n as [x | | |]; [| | | congruence].
  - destruct (min_Fin (lastLane s) x) as (m & -> & Hm1 & Hm2 & _).
    destruct (max_Fin 0 m) as (z & -> & Hz1 & Hz2 & [-> | ->]);
      eexists; split; try reflexivity; split; lra.
  - cbn [min compare].
    destruct (max_Fin 0 (lastLane s)) as (z & -> & Hz1 & Hz2 & [-> | ->]);
      eexists; split; try reflexivity; split; lra.
  - cbn [min compare max]. exists 0. split; [reflexivity |]. split; lra.
Qed.

(** A move with an argument other than NaN, from a lane other than NaN,
    ends within the lanes. *)
Lemma move_into_range (c : Command) :
  is_move c = true -> lane s <> NaN -> c <> MoveToLane NaN ->
  in_range (perform c s).
Proof.
  intros Hm Hl Hc. unfold in_range.
  assert (L : lanes (perform c s) = lanes s)
    by (destruct (perform_same_run c s) as (L & _); exact L).
  rewrite L.
  destruct c as [| | l | |]; try discriminate; cbn [perform];
    unfold moveLeft, moveRight, moveToLane; fields; apply clamp_in_lanes.
  - destruct (lane s); cbn [sub add neg]; congruence.
  - destruct (lane s); cbn [add]; congruence.
  - destruct l; cbn [round]; congruence.
Qed.

(** The lane stays within the lanes under every command whose argument
    is not NaN. *)
Lemma lane_stays_in_range (c : Command) :
  in_range s -> c <> MoveToLane NaN -> in_range (perform c s).
Proof.
  intros R Hc. destruct (is_move c) eqn:Hm.
  - apply move_into_range; auto.
    destruct R as (q & -> & _). discriminate.
  - destruct R as (q & Hq & Bq). unfold in_range.
    destruct c; try discriminate; cbn [perform]; unfold jump, slide;
      destruct (pose s); fields; eauto.
Qed.

End LaneRange.

(** C2, as the specification states it, fails: after the crash [moveLeft]
    still moves the player and [jump] still changes the pose. *)
Lemma crashed_commands_still_act :
  crashed crashedSim = true /\
  eqb (lane (moveLeft crashedSim)) (lane crashedSim) = false /\
  pose crashedSim = normal /\ pose (jump crashedSim) = jumping.
Proof. repeat split. Qed.

(** C2, amended: once crashed is true, every call to [update] returns the
    engine as it is, whatever its arguments; the commands [moveLeft],
    [moveRight], [moveToLane], [jump] and [slide] act as they do before a
    crash: they write the lane, the pose and the pose time only, and leave
    every run counter, the obstacles and the crashed flag as they are. *)
Theorem crashed_is_terminal (s : LaneRunnerSim) :
  crashed s = true ->
  (forall fuel dtSec world g, update fuel dtSec world s g = Some (s, g)) /\
  (forall c, same_run s (perform c s) /\ crashed (perform c s) = true).
Proof.
  intros H. split.
  - intros. apply update_ignored. now left.
  - intros c. pose proof (perform_same_run c s) as R. split; [exact R |].
    destruct R as (_ & _ & _ & _ & _ & _ & _ & _ & -> & _). exact H.
Qed.

Lemma crashed_is_terminal_witness :
  crashed crashedSim = true /\
  update 0 (1 # 60) world900 crashedSim halves = Some (crashedSim, halves) /\
  same_run crashedSim (perform MoveLeft crashedSim).
Proof.
  assert (H : crashed crashedSim = true) by reflexivity.
  destruct (crashed_is_terminal crashedSim H) as [U C].
  split; [exact H |]. split; [apply U | apply C].
Defined.

(* ================================================================== *)
(** ** [update]: the guards *)

(** C7: a call to [update] with a step that is NaN, an infinity, zero or
    negative, or a call on a crashed engine, returns at once (with no fuel
    at all), the engine and the random generator as they were. *)
Theorem update_ignores_bad_calls (fuel : nat) (dtSec : number) (world : World)
  (s : LaneRunnerSim) (g : Rng) :
  crashed s = true \/ dtSec = NaN \/ dtSec = PosInf \/ dtSec = NegInf \/
  (exists d, dtSec = Fin d /\ d <= 0) ->
  update fuel dtSec world s g = Some (s, g).
Proof.
  intros H. apply update_ignored.
  destruct H as [H | [-> | [-> | [-> | (d & -> & Hd)]]]]; auto.
  right. cbn [isFinite negb orb]. now apply le_Fin.
Qed.

Lemma update_ignores_bad_calls_witness :
  update 0 NaN world900 (new easy4) halves = Some (new easy4, halves) /\
  update 0 PosInf world900 (new easy4) halves = Some (new easy4, halves) /\
  update 0 (-1) world900 (new easy4) halves = Some (new easy4, halves).
Proof.
  split; [| split]; apply update_ignores_bad_calls.
  - right; left; reflexivity.
  - right; right; left; reflexivity.
  - right; right; right; right. exists (-1). split; [reflexivity | discriminate].
Defined.

(* ================================================================== *)
(** ** [update]: the counters and the difficulty ramp *)

(** C6: every call to [update] that passes the guards adds the clamped step
    to the elapsed time, adds the speed before the ramp times the clamped
    step to the distance, and sets the score to the new time * 12 + the new
    distance / 18; and in every engine started from a configuration of the
    data model the score never decreases, whatever calls follow, such a
    call returning given fuel enough. *)
Theorem score_blend :
  (forall fuel dtSec d world s s' g g',
      crashed s = false -> dtSec = Fin d -> 0 < d ->
      update fuel dtSec world s g = Some (s', g') ->
      timeSec s' = add (timeSec s) (stepOf dtSec) /\
      distancePx s' = add (distancePx s) (mul (speedPxPerSec s) (stepOf dtSec)) /\
      score s' = add (mul (timeSec s') 12) (div (distancePx s') 18)) /\
  (forall cfg s,
      valid_config cfg -> steps (new cfg) s ->
      (forall s2, steps s s2 -> le (score s) (score s2) = true) /\
      (forall dtSec d world g,
          crashed s = false -> dtSec = Fin d -> 0 < d -> rng_ok g ->
          exists fuel0 s' g',
            (forall fuel, (fuel0 <= fuel)%nat ->
                          update fuel dtSec world s g = Some (s', g')) /\
            score s' = add (mul (timeSec s') 12) (div (distancePx s') 18) /\
            le (score s) (score s') = true)).
Proof.
  assert (Formula : forall fuel dtSec d world s s' g g',
      crashed s = false -> dtSec = Fin d -> 0 < d ->
      update fuel dtSec world s g = Some (s', g') ->
      timeSec s' = add (timeSec s) (stepOf dtSec) /\
      distancePx s' = add (distancePx s) (mul (speedPxPerSec s) (stepOf dtSec)) /\
      score s' = add (mul (timeSec s') 12) (div (distancePx s') 18)).
  { intros fuel dtSec d world s s' g g' Hc -> Hd H.
    pose proof (update_fields _ _ _ _ _ _ _ Hc (guard_Fin d Hd) H) as F.
    cbv zeta in F. destruct F as (F1 & F2 & F3 & _).
    destruct (updateRun_counters (stepOf (Fin d)) s) as (R1 & R2 & R3 & _).
    rewrite F1, F2, F3. auto. }
  split; [exact Formula |].
  intros cfg s ((v & Hv & Bv) & (i & Hi & Bi) & _) Hs.
  assert (W0 : wellformed (new cfg)) by (apply (new_wellformed cfg v i); auto; lra).
  destruct (steps_progress _ _ Hs W0) as (W & _).
  split.
  - intros s2 H2. now destruct (steps_progress _ _ H2 W) as (_ & _ & A & _).
  - intros dtSec d world g Hc Hd Hd0 Hg.
    pose proof W as (t & x & sc & v1 & i1 & c1 & p1 & _ & _ & _ & _ & Hi1 & Hc1 & _).
    destruct (update_total dtSec world s g i1 c1 Hg Hi1 Hc1)
      as (fuel0 & s' & g' & Hret & _).
    exists fuel0, s', g'. split; [exact Hret |].
    pose proof (Hret fuel0 (Nat.le_refl _)) as U.
    split.
    + now destruct (Formula _ _ _ _ _ _ _ _ Hc Hd Hd0 U) as (_ & _ & A).
    + now destruct (update_progress _ _ _ _ _ _ _ W Hg U) as (_ & _ & A & _).
Qed.

Lemma score_blend_witness :
  valid_config easy4 /\
  le (score (new easy4)) (score (moveLeft (new easy4))) = true /\
  exists fuel0 s' g',
    (forall fuel, (fuel0 <= fuel)%nat ->
                  update fuel (1 # 60) world900 (new easy4) halves = Some (s', g')) /\
    score s' = add (mul (timeSec s') 12) (div (distancePx s') 18) /\
    le (score (new easy4)) (score s') = true.
Proof.
  assert (V : valid_config easy4).
  { split; [exists 220; split; [reflexivity | reflexivity] |].
    split; [exists 1.35; split; [reflexivity | reflexivity] |].
    discriminate. }
  destruct score_blend as [_ B].
  destruct (B easy4 (new easy4) V (steps_nil _)) as [M E].
  split; [exact V |]. split.
  - apply M. apply (steps_cons _ _ _ (step_command MoveLeft _)), steps_nil.
  - apply (E (1 # 60) (1 # 60) world900 halves); try reflexivity.
    intros k. split; [discriminate | reflexivity].
Defined.

(** C5, as the specification states it, fails: with an initial spawn
    interval of 0.1 s, which is positive, the first call to [update] raises
    the interval to the floor of 0.25 s. *)
Lemma short_interval_grows :
  gt (initialSpawnIntervalSec (cfg_difficulty shortConfig)) 0 = true /\
  lt (spawnIntervalSec (new shortConfig)) 0.25 = true /\
  option_map
    (fun r => (lt (spawnIntervalSec (new shortConfig)) (spawnIntervalSec (fst r)),
               crashed (fst r)))
    (update 0 (1 # 60) world900 (new shortConfig) halves) = Some (true, false).
Proof. repeat split. Qed.

(** C5, amended: for every configuration whose initial speed is finite and
    not negative and whose initial spawn interval is finite and at least
    0.25 s, across every sequence of calls on the engine the speed never
    decreases, the spawn interval never increases and never is below
    0.25 s; each call to [update] that passes the guards returns, given
    fuel enough, multiplies the speed by 1 + 0.005 * dt and sets the
    interval to the larger of 0.25 and the interval times 1 - 0.01 * dt,
    with dt the clamped step, and nothing caps the speed. *)
Theorem difficulty_ramp (cfg : SimConfig) (v i : Q) (s1 : LaneRunnerSim) :
  initialSpeedPxPerSec (cfg_difficulty cfg) = Fin v -> 0 <= v ->
  initialSpawnIntervalSec (cfg_difficulty cfg) = Fin i -> 0.25 <= i ->
  steps (new cfg) s1 ->
  (forall s2, steps s1 s2 ->
     le (speedPxPerSec s1) (speedPxPerSec s2) = true /\
     le (spawnIntervalSec s2) (spawnIntervalSec s1) = true /\
     le 0.25 (spawnIntervalSec s2) = true) /\
  (forall dtSec d world g,
     crashed s1 = false -> dtSec = Fin d -> 0 < d -> rng_ok g ->
     exists fuel0 s2 g',
       (forall fuel, (fuel0 <= fuel)%nat ->
                     update fuel dtSec world s1 g = Some (s2, g')) /\
       speedPxPerSec s2 =
         mul (speedPxPerSec s1) (add 1 (mul 0.005 (stepOf dtSec))) /\
       spawnIntervalSec s2 =
         max 0.25 (mul (spawnIntervalSec s1) (sub 1 (mul 0.01 (stepOf dtSec))))).
Proof.
  intros Hv Bv Hi Bi Hs.
  assert (W0 : wellformed (new cfg)) by (apply (new_wellformed cfg v i); auto; lra).
  assert (F0 : floored (new cfg)) by (exists i; auto).
  destruct (steps_progress _ _ Hs W0) as (W & _ & _ & _ & A).
  destruct (A F0) as [F1 _].
  split.
  - intros s2 H2.
    destruct (steps_progress _ _ H2 W) as (_ & B1 & _ & _ & B).
    destruct (B F1) as [(i2 & Hi2 & Bi2) B2].
    repeat split; auto. rewrite Hi2. now apply le_Fin.
  - intros dtSec d world g Hc -> Hd0 Hg.
    pose proof W as (t & x & sc & v1 & i1 & c1 & p1 & _ & _ & _ & _ & Hi1 & Hc1 & _).
    destruct (update_total (Fin d) world s1 g i1 c1 Hg Hi1 Hc1)
      as (fuel0 & s2 & g' & Hret & _).
    exists fuel0, s2, g'. split; [exact Hret |].
    pose proof (Hret fuel0 (Nat.le_refl _)) as U.
    pose proof (update_fields _ _ _ _ _ _ _ Hc (guard_Fin d Hd0) U) as F.
    cbv zeta in F. destruct F as (_ & _ & _ & F4 & F5 & _).
    destruct (updateRun_counters (stepOf (Fin d)) s1) as (_ & _ & _ & R4 & R5 & _).
    rewrite F4, F5. auto.
Qed.

Lemma difficulty_ramp_witness :
  exists s2,
    option_map fst (update 0 (1 # 60) world900 (new easy4) halves) = Some s2 /\
    le (speedPxPerSec (new easy4)) (speedPxPerSec s2) = true /\
    le (spawnIntervalSec s2) (spawnIntervalSec (new easy4)) = true /\
    le 0.25 (spawnIntervalSec s2) = true.
Proof.
  assert (B1 : 0 <= 220) by discriminate.
  assert (B2 : 0.25 <= 1.35) by discriminate.
  destruct (difficulty_ramp easy4 220 1.35 (new easy4) eq_refl B1 eq_refl B2
              (steps_nil _)) as [M _].
  eexists. split; [vm_compute; reflexivity |].
  apply M. eapply steps_cons; [| apply steps_nil].
  apply (step_update 0 (1 # 60) world900 _ _ halves
           (mkRng (draws halves) (cursor halves))).
  - intros k. split; [discriminate | reflexivity].
  - vm_compute. reflexivity.
Defined.

(* ================================================================== *)
(** ** [update]: the pose *)

Section PoseClock.

Import F64.




End PoseClock.

(* ================================================================== *)
(** ** [update]: the spawn loop *)

(** C10, as the specification states it, fails: on an engine made from a
    preset whose spawn interval is -Infinity the cooldown is -Infinity, an
    iteration of the loop adds a finite number to it and leaves it there,
    and no call to [update] with a finite positive step returns, whatever
    the draws. *)
Lemma endless_spawn_loop :
  spawnCooldownSec (new endlessConfig) = NegInf /\
  forall (fuel : nat) (g : Rng),
    update fuel (1 # 60) world900 (new endlessConfig) g = None.
Proof.
  split; [reflexivity |]. intros fuel g.
  rewrite update_effective by reflexivity.
  now rewrite (endless_loop fuel _ _ g 0.25).
Qed.

(** The same on binary64 numbers for a cooldown that is finite: at -10^17
    the 0.25 that an iteration adds is absorbed by the rounding of the
    sum, and the call does not return either. *)
Lemma absorbed_cooldown_never_ends :
  F64.isFinite (F64.spawnCooldownSec (F64.new F64.farConfig)) = true /\
  forall fuel : nat,
    F64.update fuel (F64.dec 0.016) F64.world900 (F64.new F64.farConfig)
      F64.halves = None.
Proof.
  split; [reflexivity |]. intros fuel. unfold F64.update.
  change (F64.crashed (F64.new F64.farConfig)) with false. cbv iota.
  change (negb (F64.isFinite (F64.dec 0.016))
          || F64.le (F64.dec 0.016) (F64.ofZ 0)) with false. cbv iota zeta.
  now rewrite (far_loop fuel _ _ 0).
Qed.

(** C10, amended: in a call to [update] that passes the guards, on a state
    whose spawn interval is a finite number and whose cooldown is a finite
    number not below -1000 s, the spawn loop ends whatever the draws: the
    interval at the loop is at least 0.25 s, the floor having been applied
    before; each iteration spawns one obstacle and adds to the cooldown the
    interval with a jitter of 15% of it at most either way, hence
    0.85 * 0.25 s at least; the loop runs its body as long as the cooldown
    is at or below zero and no longer, which is [n] times for an [n] of
    4708 at most; the call returns for any fuel of [n] or more, with [n]
    obstacles spawned and a cooldown above zero, and not for less fuel. *)
Theorem spawn_loop_terminates (dtSec : number) (d : Q) (world : World)
  (s : LaneRunnerSim) (g : Rng) (i c : Q) :
  crashed s = false -> dtSec = Fin d -> 0 < d ->
  rng_ok g ->
  spawnIntervalSec s = Fin i -> spawnCooldownSec s = Fin c -> - (1000) <= c ->
  let s0 := updateRun (stepOf dtSec) s in
  exists i0,
    spawnIntervalSec s0 = Fin i0 /\ 0.25 <= i0 /\
    (forall s1 g1 c1,
        rng_ok g1 ->
        spawnIntervalSec s1 = Fin i0 -> spawnCooldownSec s1 = Fin c1 ->
        let s2 := fst (spawnIteration (roadW world) s1 g1) in
        exists o jitter,
          obstacles s2 = obstacles s1 ++ [o] /\
          spawnIntervalSec s2 = Fin i0 /\
          spawnCooldownSec s2 = Fin (c1 + (i0 + jitter)) /\
          - (0.15 * i0) <= jitter /\ jitter <= 0.15 * i0 /\
          0.85 * 0.25 <= i0 + jitter) /\
    exists n spawned,
      let r := spawnIterations n (roadW world) s0 g in
      let s' := updateObstacles (stepOf dtSec) world (fst r) in
      (n <= 4708)%nat /\
      (forall k, (k < n)%nat ->
         le (spawnCooldownSec (fst (spawnIterations k (roadW world) s0 g))) 0
         = true) /\
      gt (spawnCooldownSec (fst r)) 0 = true /\
      obstacles (fst r) = obstacles s ++ spawned /\
      List.length spawned = n /\
      (forall fuel, (n <= fuel)%nat ->
                    update fuel dtSec world s g = Some (s', snd r)) /\
      (forall fuel, (fuel < n)%nat -> update fuel dtSec world s g = None) /\
      gt (spawnCooldownSec s') 0 = true.
Proof.
  intros Hcr -> Hd0 Hg Hi Hc Hlow s0. subst s0.
  destruct (stepOf_Fin d Hd0) as (d' & Hstep & Hd'0 & Hd'1 & _).
  destruct (updateRun_counters (stepOf (Fin d)) s)
    as (_ & _ & _ & _ & R5 & R6 & _ & _ & _ & _ & R11).
  rewrite Hstep, Hi in R5. rewrite Hstep, Hc in R6.
  cbn [add mul sub neg] in R5, R6.
  destruct (max_Fin 0.25 (i * (1 + - (0.01 * d')))) as (z & Hz & Hz1 & _).
  rewrite Hz in R5. rewrite Hstep in R11.
  exists z. rewrite Hstep. split; [exact R5 |]. split; [exact Hz1 |]. split.
  - intros s1 g1 c1 Hg1 Hi1 Hc1 s2. subst s2.
    destruct (spawnIteration_effect (roadW world) s1 g1) as (o & k & E & _).
    destruct (Hg1 k) as [Hk0 Hk1].
    rewrite E, Hi1, Hc1; fields. cbn [add mul sub neg].
    exists o. eexists.
    split; [reflexivity |]. split; [exact Hi1 |]. split; [reflexivity |].
    split; [| split]; nra.
  - assert (Hz0 : 0 < z) by lra.
    assert (Hm : 0 < c + - d' + inject_Z (Z.of_nat 4708) * (0.85 * z)).
    { change (inject_Z (Z.of_nat 4708)) with 4708. lra. }
    destruct (spawnLoop_runs 4708 (roadW world) (updateRun (Fin d') s) g z
                (c + - d') Hg R5 Hz0 R6 Hm)
      as (n & Hn & Hbefore & Hafter & Hret & Hnone).
    destruct (spawnIterations_frame n (roadW world) (updateRun (Fin d') s) g)
      as (spawned & E & L & _).
    destruct (updateObstacles_effect (Fin d') world
                (fst (spawnIterations n (roadW world) (updateRun (Fin d') s) g)))
      as (_ & _ & _ & _ & _ & _ & _ & _ & _ & _ & _ & _ & Ecd).
    assert (G : negb (isFinite (Fin d)) || le (Fin d) 0 = false)
      by now apply guard_Fin.
    exists n, spawned. cbv zeta.
    split; [exact Hn |]. split; [exact Hbefore |]. split; [exact Hafter |].
    split; [rewrite E; fields; now rewrite R11 |]. split; [exact L |].
    split; [| split].
    + intros fuel Hf. rewrite (update_effective _ _ _ _ _ Hcr G), Hstep.
      rewrite (Hret fuel Hf).
      now destruct (spawnIterations n (roadW world) (updateRun (Fin d') s) g).
    + intros fuel Hf. rewrite (update_effective _ _ _ _ _ Hcr G), Hstep.
      now rewrite (Hnone fuel Hf).
    + rewrite Ecd. exact Hafter.
Qed.

Lemma spawn_loop_terminates_witness :
  exists n spawned,
    let s0 := updateRun (stepOf (1 # 60)) (set_spawnCooldownSec (new easy4) (-3)) in
    let r := spawnIterations n (roadW world900) s0 halves in
    let s' := updateObstacles (stepOf (1 # 60)) world900 (fst r) in
    (n <= 4708)%nat /\
    obstacles (fst r) = spawned /\ List.length spawned = n /\
    (forall fuel, (n <= fuel)%nat ->
       update fuel (1 # 60) world900
         (set_spawnCooldownSec (new easy4) (-3)) halves = Some (s', snd r)) /\
    gt (spawnCooldownSec s') 0 = true.
Proof.
  assert (Hd : 0 < 1 # 60) by reflexivity.
  assert (Hg : rng_ok halves)
    by (intros k; split; [discriminate | reflexivity]).
  assert (Hlow : - (1000) <= -3) by discriminate.
  destruct (spawn_loop_terminates (1 # 60) (1 # 60) world900
              (set_spawnCooldownSec (new easy4) (-3)) halves 1.35 (-3)
              eq_refl eq_refl Hd Hg eq_refl eq_refl Hlow)
    as (i0 & _ & _ & _ & n & spawned & A & _ & _ & B & C & D & _ & E).
  exists n, spawned. cbv zeta.
  split; [exact A |]. split; [exact B |]. split; [exact C |].
  split; [exact D | exact E].
Defined.

(* ================================================================== *)
(** ** [update]: the collisions *)




(* ================================================================== *)
(** ** Further properties: rectangles and the clamp *)

Section Geometry.

Lemma compare_antisym (a b : number) :
  compare b a = option_map CompOpp (compare a b).
Proof.
  destruct a as [x | | |], b as [y | | |]; cbn [compare option_map CompOpp];
    try reflexivity.
  now rewrite (Qcompare_antisym x y).
Qed.

Lemma lt_gt (a b : number) : lt a b = gt b a.
Proof.
  unfold lt, gt. rewrite (compare_antisym a b).
  destruct (compare a b) as [[| |] |]; reflexivity.
Qed.

Lemma eqb_Fin (x y : Q) : eqb (Fin x) (Fin y) = true <-> x == y.
Proof.
  unfold eqb; cbn [compare]. rewrite Qeq_alt.
  destruct (x ?= y); split; congruence.
Qed.

Lemma gt_Fin_false (x y : Q) : gt (Fin x) (Fin y) = false <-> x <= y.
Proof.
  split; intros H.
  - destruct (Qlt_le_dec y x) as [L | L]; [| exact L].
    apply gt_Fin in L. congruence.
  - destruct (gt (Fin x) (Fin y)) eqn:E; [| reflexivity].
    apply gt_Fin in E. lra.
Qed.

Lemma lt_Fin_false (x y : Q) : lt (Fin x) (Fin y) = false <-> y <= x.
Proof. rewrite lt_gt. apply gt_Fin_false. Qed.

Lemma add_NaN_r (a : number) : add a NaN = NaN.
Proof. now destruct a. Qed.

(** X1: the overlap test does not depend on the order of its two
    rectangles, whatever numbers they hold. *)
Theorem rectsOverlap_sym (a b : Rect) : rectsOverlap a b = rectsOverlap b a.
Proof.
  unfold rectsOverlap.
  rewrite (lt_gt (rx a)), (lt_gt (ry a)), <- (lt_gt (rx b)), <- (lt_gt (ry b)).
  rewrite (andb_comm (gt (add (rx b) (rw b)) (rx a))).
  rewrite <- !andb_assoc. f_equal. f_equal. apply andb_comm.
Qed.

Lemma overlap_NaN_left (c e : Rect) : has_NaN c -> rectsOverlap c e = false.
Proof.
  intros [H | [H | [H | H]]]; unfold rectsOverlap; rewrite H.
  - reflexivity.
  - cbn [lt compare andb]. now rewrite andb_false_r.
  - rewrite add_NaN_r. cbn [gt compare]. now rewrite andb_false_r.
  - rewrite add_NaN_r. cbn [gt compare]. now rewrite andb_false_r.
Qed.

Lemma overlap_swap (a b : Rect) : rectsOverlap a b = rectsOverlap b a.
Proof.
  unfold rectsOverlap.
  rewrite (lt_gt (rx a)), (lt_gt (ry a)), <- (lt_gt (rx b)), <- (lt_gt (ry b)).
  destruct (gt (add (rx b) (rw b)) (rx a)), (lt (rx b) (add (rx a) (rw a))),
    (gt (add (ry b) (rh b)) (ry a)), (lt (ry b) (add (ry a) (rh a)));
    reflexivity.
Qed.

(** X2: a rectangle with NaN for its x, y, width or height overlaps no
    rectangle, on either side of the test. *)
Theorem rectsOverlap_NaN (a b : Rect) :
  has_NaN a \/ has_NaN b -> rectsOverlap a b = false.
Proof.
  intros [H | H]; [now apply overlap_NaN_left |].
  rewrite overlap_swap. now apply overlap_NaN_left.
Qed.

Lemma rectsOverlap_NaN_witness :
  rectsOverlap (mkRect NaN 482 105.84 46) (mkRect 301 520 109 22) = false.
Proof.
  apply rectsOverlap_NaN. left. left. reflexivity.
Defined.

Lemma clamp_NaN (a b : number) : clamp NaN a b = NaN.
Proof. unfold clamp. destruct b; cbn [min compare]; destruct a; reflexivity. Qed.

(** X3: between finite bounds in order, [clamp] sends every number but NaN
    to a finite number within the bounds, an infinity to the bound on its
    side and a number already within the bounds to itself; NaN it lets
    through, whatever the bounds. *)
Theorem clamp_spec (mn mx : Q) :
  mn <= mx ->
  (forall n, n <> NaN ->
     exists q, clamp n mn mx = Fin q /\ mn <= q /\ q <= mx) /\
  (forall x, mn <= x -> x <= mx -> eqb (clamp (Fin x) mn mx) (Fin x) = true) /\
  eqb (clamp PosInf mn mx) mx = true /\
  eqb (clamp NegInf mn mx) mn = true /\
  (forall a b : number, clamp NaN a b = NaN).
Proof.
  intros Hle. unfold clamp. repeat split.
  - intros n Hn. destruct n as [x | | |]; [| | | congruence].
    + destruct (min_Fin mx x) as (m & -> & Hm1 & Hm2 & _).
      destruct (max_Fin mn m) as (z & -> & Hz1 & Hz2 & [-> | ->]);
        eexists; split; try reflexivity; split; lra.
    + cbn [min compare].
      destruct (max_Fin mn mx) as (z & -> & Hz1 & Hz2 & [-> | ->]);
        eexists; split; try reflexivity; split; lra.
    + cbn [min compare max]. exists mn. split; [reflexivity |]. split; lra.
  - intros x H1 H2.
    destruct (min_Fin mx x) as (m & -> & Hm1 & Hm2 & Hm).
    destruct (max_Fin mn m) as (z & -> & Hz1 & Hz2 & Hz).
    apply eqb_Fin. destruct Hz as [-> | ->], Hm as [-> | ->]; lra.
  - cbn [min compare].
    destruct (max_Fin mn mx) as (z & -> & Hz1 & Hz2 & Hz).
    apply eqb_Fin. destruct Hz as [-> | ->]; lra.
  - cbn [min compare max]. apply eqb_Fin. reflexivity.
  - intros a b. fold (clamp NaN a b). apply clamp_NaN.
Qed.

Lemma clamp_spec_witness :
  eqb (clamp 2 0 3) 2 = true /\ eqb (clamp PosInf 0 3) 3 = true /\
  eqb (clamp NegInf 0 3) 0 = true.
Proof.
  assert (H : 0 <= 3) by discriminate.
  destruct (clamp_spec 0 3 H) as (_ & A & B & C & _).
  split; [apply A; discriminate |]. split; [exact B | exact C].
Defined.

End Geometry.

(* ================================================================== *)
(** ** Further properties: the lane commands *)

Section LaneCommands.

Lemma clamp_Q (x mn mx : Q) :
  mn <= mx ->
  exists z, clamp (Fin x) mn mx = Fin z /\
            mn <= z /\ z <= mx /\
            (x <= mn -> z == mn) /\ (mx <= x -> z == mx) /\
            (mn <= x -> x <= mx -> z == x).
Proof.
  intros Hle. unfold clamp.
  destruct (min_Fin mx x) as (m & -> & Hm1 & Hm2 & Hm).
  destruct (max_Fin mn m) as (z & -> & Hz1 & Hz2 & Hz).
  exists z. split; [reflexivity |].
  destruct Hz as [-> | ->], Hm as [-> | ->]; repeat split; intros; lra.
Qed.

Lemma Qfloor_unique (y : Q) (k : Z) :
  inject_Z k <= y -> y < inject_Z k + 1 -> Qfloor y = k.
Proof.
  intros H1 H2.
  pose proof (Qfloor_le y) as F1. pose proof (Qlt_floor y) as F2.
  rewrite inject_Z_plus in F2. change (inject_Z 1) with 1 in F2.
  assert (A : inject_Z (Qfloor y) < inject_Z (k + 1)).
  { rewrite inject_Z_plus. change (inject_Z 1) with 1. lra. }
  assert (B : inject_Z k < inject_Z (Qfloor y + 1)).
  { rewrite inject_Z_plus. change (inject_Z 1) with 1. lra. }
  rewrite <- Zlt_Qlt in A, B. lia.
Qed.

(** X4: on an engine with at least one lane and the player in lane q
    within the lanes, [moveLeft] moves to q - 1 and stops at lane 0,
    [moveRight] moves to q + 1 and stops at the last lane, neither wraps
    around, and each undoes the other away from the two ends. *)
Theorem lane_moves (s : LaneRunnerSim) (q : Q) :
  (1 <= lanes s)%Z ->
  lane s = Fin q -> 0 <= q -> q <= lastLane s ->
  (exists l, lane (moveLeft s) = Fin l /\
             (1 <= q -> l == q - 1) /\ (q <= 1 -> l == 0)) /\
  (exists r, lane (moveRight s) = Fin r /\
             (q + 1 <= lastLane s -> r == q + 1) /\
             (lastLane s <= q + 1 -> r == lastLane s)) /\
  (1 <= q -> eqb (lane (moveRight (moveLeft s))) (Fin q) = true) /\
  (q + 1 <= lastLane s -> eqb (lane (moveLeft (moveRight s))) (Fin q) = true).
Proof.
  intros HL Hq H0 H1.
  destruct (lastLane_bounds s HL) as [T0 _].
  assert (ML : forall s0 x, lanes s0 = lanes s -> lane s0 = Fin x ->
             lane (moveLeft s0) = clamp (Fin (x - 1)) 0 (lastLane s)).
  { intros s0 x E Ex. unfold moveLeft; fields.
    rewrite Ex; unfold lastLane, ofZ; rewrite E; reflexivity. }
  assert (MR : forall s0 x, lanes s0 = lanes s -> lane s0 = Fin x ->
             lane (moveRight s0) = clamp (Fin (x + 1)) 0 (lastLane s)).
  { intros s0 x E Ex. unfold moveRight; fields.
    rewrite Ex; unfold lastLane, ofZ; rewrite E; reflexivity. }
  destruct (clamp_Q (q - 1) 0 (lastLane s) T0)
    as (l & El & Bl0 & Bl1 & Ll & _ & Ml).
  destruct (clamp_Q (q + 1) 0 (lastLane s) T0)
    as (r & Er & Br0 & Br1 & _ & Hr & Mr).
  rewrite <- (ML s q eq_refl Hq) in El.
  rewrite <- (MR s q eq_refl Hq) in Er.
  split; [| split; [| split]].
  - exists l. split; [exact El |]. split; intros; [apply Ml | apply Ll]; lra.
  - exists r. split; [exact Er |]. split; intros; [apply Mr | apply Hr]; lra.
  - intros Hq1.
    rewrite (MR (moveLeft s) l eq_refl El).
    destruct (clamp_Q (l + 1) 0 (lastLane s) T0) as (z & -> & _ & _ & _ & _ & Mz).
    apply eqb_Fin. assert (l == q - 1) by (apply Ml; lra). rewrite Mz; lra.
  - intros Hq1.
    rewrite (ML (moveRight s) r eq_refl Er).
    destruct (clamp_Q (r - 1) 0 (lastLane s) T0) as (z & -> & _ & _ & _ & _ & Mz).
    apply eqb_Fin. assert (r == q + 1) by (apply Mr; lra). rewrite Mz; lra.
Qed.

Lemma lane_moves_witness :
  eqb (lane (moveRight (moveLeft (new easy4)))) 1 = true /\
  eqb (lane (moveLeft (moveRight (new easy4)))) 1 = true.
Proof.
  assert (HL : (1 <= lanes (new easy4))%Z) by discriminate.
  assert (H0 : 0 <= 1) by discriminate.
  assert (H1 : 1 <= lastLane (new easy4)) by discriminate.
  destruct (lane_moves (new easy4) 1 HL eq_refl H0 H1) as (_ & _ & A & B).
  split; [apply A | apply B]; discriminate.
Defined.

(** X5: on an engine with at least one lane, [moveToLane] puts the player
    in lane k for every argument from k - 1/2 up to, not including,
    k + 1/2, when k is one of the lanes; in lane 0 for every argument below
    1/2, -Infinity included; in the last lane for every argument from the
    last lane on, +Infinity included; whatever the lane before, and with
    nothing else written. *)
Theorem moveToLane_rounds (s : LaneRunnerSim) :
  (1 <= lanes s)%Z ->
  (forall (l : Q) (k : Z),
      inject_Z k - (1 # 2) <= l -> l < inject_Z k + (1 # 2) ->
      (0 <= k)%Z -> (k <= lanes s - 1)%Z ->
      eqb (lane (moveToLane (Fin l) s)) (Fin (inject_Z k)) = true) /\
  (forall l : Q, l < 1 # 2 -> eqb (lane (moveToLane (Fin l) s)) 0 = true) /\
  (forall l : Q, lastLane s <= l ->
      eqb (lane (moveToLane (Fin l) s)) (Fin (lastLane s)) = true) /\
  eqb (lane (moveToLane NegInf s)) 0 = true /\
  eqb (lane (moveToLane PosInf s)) (Fin (lastLane s)) = true /\
  (forall l s0, lanes s0 = lanes s ->
      lane (moveToLane l s0) = lane (moveToLane l s)) /\
  (forall l, same_run s (moveToLane l s) /\
             pose (moveToLane l s) = pose s /\ poseT (moveToLane l s) = poseT s).
Proof.
  intros HL. destruct (lastLane_bounds s HL) as [T0 _].
  assert (E : forall l : Q,
             lane (moveToLane (Fin l) s) =
             clamp (Fin (inject_Z (Qfloor (l + (1 # 2))))) 0 (lastLane s)).
  { intros l. reflexivity. }
  split; [| split; [| split; [| split; [| split; [| split]]]]].
  - intros l k H1 H2 Hk0 Hk1. rewrite E.
    assert (F : Qfloor (l + (1 # 2)) = k) by (apply Qfloor_unique; lra).
    rewrite F.
    destruct (clamp_Q (inject_Z k) 0 (lastLane s) T0) as (z & -> & _ & _ & _ & _ & M).
    apply eqb_Fin. apply M.
    + change 0 with (inject_Z 0). now rewrite <- Zle_Qle.
    + unfold lastLane. change (- (1)) with (inject_Z (-1)).
      rewrite <- inject_Z_plus, <- Zle_Qle. lia.
  - intros l Hl. rewrite E.
    destruct (clamp_Q (inject_Z (Qfloor (l + (1 # 2)))) 0 (lastLane s) T0)
      as (z & -> & _ & _ & Lo & _).
    apply eqb_Fin. apply Lo.
    pose proof (Qfloor_le (l + (1 # 2))) as F1.
    assert (A : inject_Z (Qfloor (l + (1 # 2))) < inject_Z 1)
      by (change (inject_Z 1) with 1; lra).
    rewrite <- Zlt_Qlt in A. change 0 with (inject_Z 0).
    rewrite <- Zle_Qle. lia.
  - intros l Hl. rewrite E.
    destruct (clamp_Q (inject_Z (Qfloor (l + (1 # 2)))) 0 (lastLane s) T0)
      as (z & -> & _ & _ & _ & Hi & _).
    apply eqb_Fin. apply Hi.
    assert (F : (lanes s - 1 <= Qfloor (l + (1 # 2)))%Z).
    { rewrite <- (Qfloor_Z (lanes s - 1)). apply Qfloor_resp_le.
      unfold lastLane in Hl. unfold Z.sub.
      rewrite inject_Z_plus. change (inject_Z (Z.opp 1)) with (- (1)). lra. }
    unfold lastLane. change (- (1)) with (inject_Z (-1)).
    rewrite <- inject_Z_plus, <- Zle_Qle. lia.
  - unfold moveToLane, clamp; fields. cbn [round min compare sub ofZ add neg max].
    apply eqb_Fin. reflexivity.
  - unfold moveToLane, clamp; fields. cbn [round min compare sub ofZ add neg].
    fold (lastLane s).
    destruct (max_Fin 0 (lastLane s)) as (z & -> & Hz1 & Hz2 & [-> | ->]);
      apply eqb_Fin; lra.
  - intros l s0 E0. unfold moveToLane; fields. now rewrite E0.
  - intros l. unfold same_run, moveToLane; fields. repeat split.
Qed.

Lemma moveToLane_rounds_witness :
  eqb (lane (moveToLane 2.5 (new easy4))) 3 = true /\
  eqb (lane (moveToLane (-7) (new easy4))) 0 = true /\
  eqb (lane (moveToLane PosInf (new easy4))) 3 = true.
Proof.
  assert (HL : (1 <= lanes (new easy4))%Z) by discriminate.
  destruct (moveToLane_rounds (new easy4) HL) as (A & B & _ & _ & C & _).
  split; [| split].
  - apply (A 2.5 3%Z); discriminate || reflexivity.
  - apply (B (-7)). reflexivity.
  - exact C.
Defined.

End LaneCommands.

(* ================================================================== *)
(** ** Further properties: spawning and pruning *)

Section Spawning.

Lemma lastOf_app {A : Type} (l : list A) (a : A) : lastOf (l ++ [a]) = Some a.
Proof.
  induction l as [| b l IH]; [reflexivity |].
  cbn [app lastOf]. rewrite IH. destruct (l ++ [a]) eqn:E; [| reflexivity].
  destruct l; discriminate.
Qed.

Lemma lanes_nonzero (L : Z) : (1 <= L)%Z -> Qeq_bool (inject_Z L) 0 = false.
Proof.
  intros H. destruct (Qeq_bool (inject_Z L) 0) eqn:E; [| reflexivity].
  apply Qeq_bool_eq in E. unfold Qeq in E. cbn in E. lia.
Qed.

Lemma div_lanes (W : Q) (L : Z) :
  (1 <= L)%Z -> div (Fin W) (ofZ L) = Fin (W / inject_Z L).
Proof. intros H. unfold div, ofZ. now rewrite (lanes_nonzero L H). Qed.

(** X6: with at least one lane, a road of a finite width that is not
    negative and draws in [0, 1), [spawnObstacle] appends exactly one
    obstacle after the ones there are: in a lane that is an integer from 0
    to the lane count less one, with its top between 340 and 120 pixels
    above the field, 22 pixels high when low and 26 when high, a whole
    number of pixels wide, from 0 to the width of a lane, its identifier
    made from the fourth draw; it takes four draws and writes no other
    field. *)
Theorem spawnObstacle_spec (rw : number) (W : Q) (s : LaneRunnerSim) (g : Rng) :
  (1 <= lanes s)%Z -> rng_ok g -> rw = Fin W -> 0 <= W ->
  exists o,
    fst (spawnObstacle rw s g) = set_obstacles s (obstacles s ++ [o]) /\
    (exists k, o_lane o = Fin (inject_Z k) /\ (0 <= k)%Z /\ (k < lanes s)%Z) /\
    (exists y, o_y o = Fin y /\ - (340) <= y /\ y <= - (120)) /\
    (o_kind o = low /\ o_height o = 22 \/ o_kind o = high /\ o_height o = 26) /\
    (exists k, o_width o = Fin (inject_Z k) /\ (0 <= k)%Z /\
               inject_Z k <= W / inject_Z (lanes s)) /\
    o_id o = ("obs"%string, Fin (draws g (3 + cursor g))) /\
    draws (snd (spawnObstacle rw s g)) = draws g /\
    cursor (snd (spawnObstacle rw s g)) = (cursor g + 4)%nat.
Proof.
  intros HL Hg -> HW.
  assert (P : 0 < inject_Z (lanes s)).
  { change 0 with (inject_Z 0). rewrite <- Zlt_Qlt. lia. }
  cbv [spawnObstacle makeId Math_random]; fields.
  eexists. split; [reflexivity |].
  cbn [o_lane o_y o_kind o_height o_width o_id draws cursor].
  split; [| split; [| split; [| split; [| split; [| split]]]]].
  - destruct (Hg (cursor g)) as [H0 H1].
    exists (Qfloor (draws g (cursor g) * inject_Z (lanes s))).
    split; [reflexivity |].
    split.
    + rewrite <- (Qfloor_Z 0). apply Qfloor_resp_le.
      change (inject_Z 0) with 0. apply Qmult_le_0_compat; lra.
    + pose proof (Qfloor_le (draws g (cursor g) * inject_Z (lanes s))) as F.
      rewrite Zlt_Qlt. nra.
  - destruct (Hg (S (S (cursor g)))) as [H0 H1].
    eexists. split; [reflexivity |]. split; lra.
  - destruct (lt _ 0.6); [left | right]; split; reflexivity.
  - rewrite (div_lanes W (lanes s) HL). cbn [mul floor].
    assert (L0 : 0 <= W / inject_Z (lanes s)) by (apply Qle_shift_div_l; lra).
    exists (Qfloor (W / inject_Z (lanes s) * 0.58)).
    split; [reflexivity |]. split.
    + rewrite <- (Qfloor_Z 0). apply Qfloor_resp_le.
      change (inject_Z 0) with 0. lra.
    + pose proof (Qfloor_le (W / inject_Z (lanes s) * 0.58)) as F. lra.
  - reflexivity.
  - reflexivity.
  - lia.
Qed.

Lemma spawnObstacle_spec_witness :
  exists o,
    fst (spawnObstacle 756 (new easy4) halves)
    = set_obstacles (new easy4) (obstacles (new easy4) ++ [o]) /\
    (exists k, o_lane o = Fin (inject_Z k) /\ (0 <= k)%Z /\ (k < 4)%Z) /\
    (exists y, o_y o = Fin y /\ - (340) <= y /\ y <= - (120)) /\
    (exists k, o_width o = Fin (inject_Z k) /\ (0 <= k)%Z /\
               inject_Z k <= 756 / inject_Z 4).
Proof.
  assert (HL : (1 <= lanes (new easy4))%Z) by discriminate.
  assert (Hg : rng_ok halves)
    by (intros k; split; [discriminate | reflexivity]).
  assert (HW : 0 <= 756) by discriminate.
  destruct (spawnObstacle_spec 756 756 (new easy4) halves HL Hg eq_refl HW)
    as (o & A & B & C & _ & D & _).
  exists o. split; [exact A |]. split; [exact B |]. split; [exact C | exact D].
Defined.

Lemma near_decimals :
  near_06 == 5404319552844595 # 9007199254740992 /\
  near_035 == 6305039478318694 # 18014398509481984 /\
  near_035 < 0.35 /\ 0.35 < near_06 /\ near_06 < 0.6.
Proof. repeat split. Qed.

(** X7: the kind of a spawned obstacle by its second draw.  Below 0.35 it
    is low and from 0.6 on it is high, whatever the lanes; between the
    two it is low, except when the obstacle spawned last is in the same
    lane: then it is high.  The two bounds are taken clear of the binary64
    numbers next below the decimals 0.35 and 0.6: at these two draws the
    rounded sum of the source decides, and not the sum of the rationals. *)
Theorem spawn_kind_bias (rw : number) (s : LaneRunnerSim) (g : Rng) (o : Obstacle) :
  lastOf (obstacles (fst (spawnObstacle rw s g))) = Some o ->
  let r2 := draws g (S (cursor g)) in
  (r2 < near_035 -> o_kind o = low) /\
  (0.6 <= r2 -> o_kind o = high) /\
  (0.35 <= r2 -> r2 < near_06 ->
   match lastOf (obstacles s) with
   | Some prev =>
       if eqb (o_lane prev) (o_lane o) then o_kind o = high else o_kind o = low
   | None => o_kind o = low
   end).
Proof.
  cbv [spawnObstacle makeId Math_random]; fields.
  rewrite lastOf_app. intros H. injection H as <-.
  cbn [o_lane o_kind draws cursor].
  destruct near_decimals as (_ & _ & N1 & N2 & N3).
  assert (K : forall b : Q,
             (draws g (S (cursor g)) + b < 0.6 ->
              (if lt (Fin (draws g (S (cursor g)) + b)) 0.6
               then low else high) = low) /\
             (0.6 <= draws g (S (cursor g)) + b ->
              (if lt (Fin (draws g (S (cursor g)) + b)) 0.6
               then low else high) = high)).
  { intros b.
    destruct (lt (Fin (draws g (S (cursor g)) + b)) 0.6) eqn:E.
    - apply lt_Fin in E. split; [reflexivity | lra].
    - apply lt_Fin_false in E. split; [lra | reflexivity]. }
  split; [| split].
  - intros R. destruct (lastOf (obstacles s)) as [prev |];
      [destruct (eqb (o_lane prev) _) |]; apply K; lra.
  - intros R. destruct (lastOf (obstacles s)) as [prev |];
      [destruct (eqb (o_lane prev) _) |]; apply K; lra.
  - intros R1 R2. destruct (lastOf (obstacles s)) as [prev |];
      [destruct (eqb (o_lane prev) _) |]; apply K; lra.
Qed.

Lemma spawn_kind_bias_witness :
  exists o,
    lastOf (obstacles (fst (spawnObstacle 756 injectedSim halves))) = Some o /\
    0.35 <= 1 # 2 /\ 1 # 2 < near_06 /\ o_kind o = low.
Proof.
  eexists. split; [reflexivity |].
  assert (R1 : 0.35 <= 1 # 2) by discriminate.
  assert (R2 : 1 # 2 < near_06) by reflexivity.
  split; [exact R1 |]. split; [exact R2 |].
  destruct (spawn_kind_bias 756 injectedSim halves _ eq_refl) as (_ & _ & C).
  exact (C R1 R2).
Defined.

(** At the two draws left out, on binary64 numbers: a second draw of the
    number next below 0.6 gives a high obstacle, and so does, behind an
    obstacle in the same lane, a second draw of the number next below
    0.35. *)
Example kinds_at_the_bounds :
  let g (r : F64.number) :=
    F64.mkRng (fun k => match k with 1%nat => r | _ => F64.dec 0.5 end) 0 in
  let prev :=
    F64.mkObstacle ("obs"%string, F64.ofZ 0) (F64.ofZ 2) low (F64.ofZ 0)
      (F64.ofZ 109) (F64.ofZ 22) in
  let kinds (s : F64.LaneRunnerSim) (r : F64.number) :=
    map F64.o_kind
      (F64.obstacles (fst (F64.spawnObstacle (F64.ofZ 756) s (g r)))) in
  kinds (F64.new F64.easy4) (F64.dec 0.6) = [high] /\
  kinds (F64.set_obstacles (F64.new F64.easy4) [prev]) (F64.dec 0.35)
  = [low; high].
Proof. vm_compute. split; reflexivity. Qed.

(** X8: after a call to [update] that passes the guards, every obstacle of
    the active set is above the pruning line, with its top less than the
    field height plus 120, and is an obstacle of before the call or one
    spawned in it, moved down by the new speed times the clamped step, its
    identity, lane, kind, width and height as they were; none is made by
    the move or the pruning. *)
Theorem update_prunes (fuel : nat) (dtSec : number) (d : Q) (world : World)
  (s s' : LaneRunnerSim) (g g' : Rng) :
  crashed s = false -> dtSec = Fin d -> 0 < d ->
  update fuel dtSec world s g = Some (s', g') ->
  Forall (fun o' => lt (o_y o') (add (height world) 120) = true) (obstacles s') /\
  exists spawned,
    (List.length (obstacles s') <= List.length (obstacles s) + List.length spawned)%nat /\
    (List.length spawned <= fuel)%nat /\
    forall o', In o' (obstacles s') ->
      exists o, In o (obstacles s ++ spawned) /\
        o_y o' = add (o_y o) (mul (speedPxPerSec s') (stepOf dtSec)) /\
        o_id o' = o_id o /\ o_lane o' = o_lane o /\ o_kind o' = o_kind o /\
        o_width o' = o_width o /\ o_height o' = o_height o.
Proof.
  intros Hcr -> Hd0 U.
  pose proof (update_fields _ _ _ _ _ _ _ Hcr (guard_Fin d Hd0) U) as F.
  cbv zeta in F.
  destruct F as (_ & _ & _ & _ & _ & _ & _ & _ & _ & _
                 & (spawned & Hlen & Hobs) & _).
  split.
  - rewrite Hobs. apply Forall_forall. intros o' Ho'.
    apply filter_In in Ho'. exact (proj2 Ho').
  - exists spawned. split; [| split; [exact Hlen |]].
    + rewrite Hobs, <- length_app.
      rewrite <- (length_map (moved s' (stepOf (Fin d))) (obstacles s ++ spawned)).
      apply filter_length_le.
    + intros o' Ho'. rewrite Hobs in Ho'. apply filter_In in Ho'.
      destruct Ho' as [Ho' _]. apply in_map_iff in Ho'.
      destruct Ho' as (o & <- & Ho). exists o. split; [exact Ho |].
      unfold moved, set_o_y. cbn [o_y o_id o_lane o_kind o_width o_height].
      repeat split.
Qed.

Lemma update_prunes_witness :
  exists s' g',
    update 0 0.05 world900
      (set_obstacles (new easy4)
         [mkObstacle ("obs"%string, Fin 0) 1 low 675 109 22; injected]) halves
    = Some (s', g') /\
    Forall (fun o' => lt (o_y o') (add (height world900) 120) = true)
           (obstacles s') /\
    List.length (obstacles s') = 1%nat.
Proof.
  eexists. eexists. split; [vm_compute; reflexivity |].
  split; [| reflexivity].
  assert (Hd : 0 < 0.05) by reflexivity.
  refine (proj1 (update_prunes 0 0.05 0.05 world900
            (set_obstacles (new easy4)
               [mkObstacle ("obs"%string, Fin 0) 1 low 675 109 22; injected])
            _ halves _ eq_refl eq_refl Hd _)).
  vm_compute. reflexivity.
Defined.

End Spawning.

(* ================================================================== *)
(** ** Further properties: what a run keeps *)

Section RunInvariants.

Lemma update_cooling (fuel : nat) (dtSec : number) (world : World)
  (s s' : LaneRunnerSim) (g g' : Rng) :
  wellformed s -> cooling s -> rng_ok g ->
  update fuel dtSec world s g = Some (s', g') ->
  cooling s'.
Proof.
  intros W C Hg U.
  destruct (crashed s) eqn:Hc.
  { rewrite update_ignored in U by auto. injection U as <- <-. exact C. }
  destruct (negb (isFinite dtSec) || le dtSec 0) eqn:Hd.
  { rewrite update_ignored in U by auto. injection U as <- <-. exact C. }
  pose proof (update_fields _ _ _ _ _ _ _ Hc Hd U) as F. cbv zeta in F.
  destruct F as (_ & _ & _ & _ & _ & _ & _ & _ & _ & _ & _ & _ & Hexit & _).
  destruct (update_progress _ _ _ _ _ _ _ W Hg U) as (W' & _).
  destruct W' as (t & x & sc & v & i & c & p & _ & _ & _ & _ & _ & Hcd & _).
  exists c. split; [exact Hcd |]. rewrite Hcd in Hexit.
  now apply le_Fin_false.
Qed.

Lemma steps_cooling (s s' : LaneRunnerSim) :
  steps s s' -> wellformed s -> cooling s -> cooling s'.
Proof.
  induction 1 as [s | s s1 s2 H1 H2 IH]; intros W C; [exact C |].
  destruct (step_progress _ _ H1 W) as (W1 & _).
  apply IH; [exact W1 |].
  destruct H1 as [c s0 | fuel dtSec world s0 s1 g g' Hg U].
  - destruct (perform_same_run c s0) as (_ & _ & _ & _ & _ & _ & _ & E & _).
    destruct C as (cd & Hcd & Bcd). exists cd. rewrite E. auto.
  - exact (update_cooling fuel dtSec world s0 s1 g g' W C Hg U).
Qed.

(** X9: in an engine started from a configuration of finite positive
    initial speed and spawn interval, whatever calls came before, the spawn
    cooldown is above zero between calls, and a call to [update] that
    passes the guards runs the spawn loop once at most: it returns with a
    single unit of fuel, spawns one obstacle or none, and leaves the
    cooldown above zero. *)
Theorem one_spawn_per_update (cfg : SimConfig) (s : LaneRunnerSim) :
  valid_config cfg -> steps (new cfg) s ->
  cooling s /\
  forall dtSec d world g,
    crashed s = false -> dtSec = Fin d -> 0 < d -> rng_ok g ->
    exists s' g' spawned,
      (forall fuel, (1 <= fuel)%nat ->
                    update fuel dtSec world s g = Some (s', g')) /\
      (List.length spawned <= 1)%nat /\
      obstacles s' =
        filter (kept world)
               (map (moved s' (stepOf dtSec)) (obstacles s ++ spawned)) /\
      cooling s'.
Proof.
  intros ((v & Hv & Bv) & (i & Hi & Bi) & _) Hs.
  assert (W0 : wellformed (new cfg)) by (apply (new_wellformed cfg v i); auto; lra).
  assert (C0 : cooling (new cfg)) by (exists i; split; [exact Hi | exact Bi]).
  destruct (steps_progress _ _ Hs W0) as (W & _).
  pose proof (steps_cooling _ _ Hs W0 C0) as C.
  split; [exact C |].
  intros dtSec d world g Hcr -> Hd0 Hg.
  destruct (stepOf_Fin d Hd0) as (d' & Hstep & Hd'0 & Hd'1 & _).
  destruct (updateRun_counters (Fin d') s) as (_ & _ & _ & _ & R5 & R6 & _).
  pose proof W as (t & x & sc & v1 & i1 & c1 & p1 & _ & _ & _ & _ & Hi1 & Hc1 & _).
  destruct C as (c & Hc & Bc). rewrite Hc in Hc1. injection Hc1 as <-.
  rewrite Hi1 in R5. rewrite Hc in R6. cbn [add mul sub neg] in R5, R6.
  destruct (max_Fin 0.25 (i1 * (1 + - (0.01 * d')))) as (z & Hz & Hz1 & _).
  rewrite Hz in R5.
  assert (Hz0 : 0 < z) by lra.
  assert (Hn : 0 < c + - d' + inject_Z (Z.of_nat 1) * (0.85 * z)).
  { change (inject_Z (Z.of_nat 1)) with 1. lra. }
  destruct (spawnLoop_total 1 (roadW world) _ g z _ Hg R5 Hz0 R6 Hn)
    as (s1 & g1 & c' & L & _).
  assert (U : forall fuel, (1 <= fuel)%nat ->
            update fuel (Fin d) world s g
            = Some (updateObstacles (Fin d') world s1, g1)).
  { intros fuel Hfuel. rewrite (update_effective _ _ _ _ _ Hcr (guard_Fin d Hd0)).
    rewrite Hstep. now rewrite (spawnLoop_more_fuel _ _ _ _ _ L fuel Hfuel). }
  pose proof (update_fields _ _ _ _ _ _ _ Hcr (guard_Fin d Hd0)
                (U 1%nat (Nat.le_refl 1))) as F.
  cbv zeta in F.
  destruct F as (_ & _ & _ & _ & _ & _ & _ & _ & _ & _
                 & (spawned & Hlen & Hobs) & _).
  exists (updateObstacles (Fin d') world s1), g1, spawned.
  split; [exact U |]. split; [exact Hlen |]. split; [exact Hobs |].
  apply (update_cooling 1 (Fin d) world s _ g g1); auto.
  exists c. auto.
Qed.

Lemma one_spawn_per_update_witness :
  cooling (new easy4) /\
  exists s' g' spawned,
    (forall fuel, (1 <= fuel)%nat ->
       update fuel (1 # 60) world900 (new easy4) halves = Some (s', g')) /\
    (List.length spawned <= 1)%nat /\
    obstacles s' =
      filter (kept world900)
             (map (moved s' (stepOf (1 # 60))) (obstacles (new easy4) ++ spawned)) /\
    cooling s'.
Proof.
  assert (V : valid_config easy4).
  { split; [exists 220; split; reflexivity |].
    split; [exists 1.35; split; reflexivity | discriminate]. }
  destruct (one_spawn_per_update easy4 (new easy4) V (steps_nil _)) as [C E].
  split; [exact C |].
  apply (E (1 # 60) (1 # 60) world900 halves); try reflexivity.
  intros k. split; [discriminate | reflexivity].
Defined.

Lemma steps_keep_config (a b : LaneRunnerSim) :
  steps a b -> lanes b = lanes a /\ difficulty b = difficulty a.
Proof.
  induction 1 as [a | a a1 a2 H1 H2 IH]; [auto |].
  destruct IH as [I1 I2]. rewrite I1, I2. clear H2 I1 I2.
  destruct H1 as [c s0 | fuel dtSec world s0 s1 g g' Hg U].
  - destruct (perform_same_run c s0) as (A & B & _). auto.
  - destruct (crashed s0) eqn:Hc.
    { rewrite update_ignored in U by auto. injection U as <- <-. auto. }
    destruct (negb (isFinite dtSec) || le dtSec 0) eqn:Hd.
    { rewrite update_ignored in U by auto. injection U as <- <-. auto. }
    pose proof (update_fields _ _ _ _ _ _ _ Hc Hd U) as F. cbv zeta in F.
    destruct F as (_ & _ & _ & _ & _ & _ & _ & A & B & _). auto.
Qed.

(** X10: no call on the engine writes the lane count or the difficulty:
    after any sequence of commands and [update] calls they are those of the
    configuration. *)
Theorem configuration_is_kept (cfg : SimConfig) (s : LaneRunnerSim) :
  steps (new cfg) s ->
  lanes s = cfg_lanes cfg /\ difficulty s = cfg_difficulty cfg.
Proof.
  intros H. change (cfg_lanes cfg) with (lanes (new cfg)).
  change (cfg_difficulty cfg) with (difficulty (new cfg)).
  induction H as [a | a a1 a2 H1 H2 IH]; [auto |].
  destruct IH as [I1 I2]. rewrite I1, I2. clear H2 I1 I2.
  destruct H1 as [c s0 | fuel dtSec world s0 s1 g g' Hg U].
  - destruct (perform_same_run c s0) as (A & B & _). auto.
  - destruct (crashed s0) eqn:Hc.
    { rewrite update_ignored in U by auto. injection U as <- <-. auto. }
    destruct (negb (isFinite dtSec) || le dtSec 0) eqn:Hd.
    { rewrite update_ignored in U by auto. injection U as <- <-. auto. }
    pose proof (update_fields _ _ _ _ _ _ _ Hc Hd U) as F. cbv zeta in F.
    destruct F as (_ & _ & _ & _ & _ & _ & _ & A & B & _). auto.
Qed.

Lemma configuration_is_kept_witness :
  lanes (jump (moveLeft (new easy4))) = 4%Z /\
  difficulty (jump (moveLeft (new easy4))) = easyOption.
Proof.
  apply (configuration_is_kept easy4).
  eapply steps_cons; [apply (step_command MoveLeft) |].
  eapply steps_cons; [apply (step_command Jump) |]. apply steps_nil.
Defined.

(** X11: the statistics of the end of the run.  In an engine started from
    a configuration of finite positive initial speed and spawn interval,
    they name the difficulty of the configuration and give the elapsed
    time and the distance as they are; and as long as the score is a finite
    number, they give for it a whole number that is not negative, at most
    the score and less than one below it.  A score that is not a finite
    number is given as it is, in any engine. *)
Theorem game_over_stats (cfg : SimConfig) (s : LaneRunnerSim) (sc : Q) :
  valid_config cfg -> steps (new cfg) s -> score s = Fin sc ->
  let stats := getGameOverStats s in
  difficultyId stats = id (cfg_difficulty cfg) /\
  timeSurvivedSec stats = timeSec s /\
  gs_distancePx stats = distancePx s /\
  (exists k : Z,
      gs_score stats = Fin (inject_Z k) /\
      (0 <= k)%Z /\ inject_Z k <= sc /\ sc < inject_Z k + 1) /\
  (forall t : LaneRunnerSim,
      isFinite (score t) = false -> gs_score (getGameOverStats t) = score t).
Proof.
  intros ((v & Hv & Bv) & (i & Hi & Bi) & _) Hs Hscore stats.
  assert (W0 : wellformed (new cfg)) by (apply (new_wellformed cfg v i); auto; lra).
  destruct (steps_progress _ _ Hs W0) as (W & _).
  destruct (steps_keep_config _ _ Hs) as [_ D].
  destruct W as (t & x & sc' & v1 & i1 & c1 & p1 & _ & _ & Hsc & _ & _ & _ & _
                 & Bt & Bx & Bsc & _).
  rewrite Hscore in Hsc. injection Hsc as <-.
  subst stats. unfold getGameOverStats.
  cbn [difficultyId timeSurvivedSec gs_distancePx gs_score].
  rewrite D, Hscore. cbn [floor].
  split; [reflexivity |]. split; [reflexivity |]. split; [reflexivity |].
  split.
  - exists (Qfloor sc). split; [reflexivity |].
    assert (S0 : 0 <= sc).
    { rewrite Bsc. assert (0 <= x / 18) by (apply Qle_shift_div_l; lra). lra. }
    split; [| split].
    + rewrite <- (Qfloor_Z 0). now apply Qfloor_resp_le.
    + apply Qfloor_le.
    + pose proof (Qlt_floor sc) as F. rewrite inject_Z_plus in F. exact F.
  - intros t0 Hf. destruct (score t0); [discriminate | | |]; reflexivity.
Qed.

Lemma game_over_stats_witness :
  difficultyId (getGameOverStats (jump (new easy4))) = easy /\
  exists k : Z,
    gs_score (getGameOverStats (jump (new easy4))) = Fin (inject_Z k) /\
    (0 <= k)%Z /\ inject_Z k <= 0 /\ 0 < inject_Z k + 1.
Proof.
  assert (V : valid_config easy4).
  { split; [exists 220; split; reflexivity |].
    split; [exists 1.35; split; reflexivity | discriminate]. }
  assert (S1 : steps (new easy4) (jump (new easy4))).
  { eapply steps_cons; [apply (step_command Jump) | apply steps_nil]. }
  destruct (game_over_stats easy4 (jump (new easy4)) 0 V S1 eq_refl)
    as (A & _ & _ & B & _).
  split; [exact A | exact B].
Defined.

(** X12: once the engine has crashed, no call changes what the end of the
    run reports: after any sequence of commands and [update] calls the
    statistics, the obstacles and the crashed flag are those of the crash. *)
Theorem stats_frozen_after_crash (s s' : LaneRunnerSim) :
  crashed s = true -> steps s s' ->
  getGameOverStats s' = getGameOverStats s /\
  obstacles s' = obstacles s /\ crashed s' = true.
Proof.
  intros Hc H. induction H as [a | a a1 a2 H1 H2 IH]; [auto |].
  assert (K : getGameOverStats a1 = getGameOverStats a /\
              obstacles a1 = obstacles a /\ crashed a1 = true).
  { destruct H1 as [c s0 | fuel dtSec world s0 s1 g g' Hg U].
    - destruct (perform_same_run c s0)
        as (_ & E2 & E3 & E4 & E5 & _ & _ & _ & E9 & E10).
      unfold getGameOverStats. rewrite E2, E3, E4, E5, E9, E10. auto.
    - rewrite update_ignored in U by auto. injection U as <- <-. auto. }
  destruct K as (K1 & K2 & K3). destruct (IH K3) as (I1 & I2 & I3).
  rewrite I1, I2. auto.
Qed.

Lemma stats_frozen_after_crash_witness :
  getGameOverStats (moveLeft crashedSim) = getGameOverStats crashedSim /\
  obstacles (moveLeft crashedSim) = obstacles crashedSim /\
  crashed (moveLeft crashedSim) = true.
Proof.
  apply (stats_frozen_after_crash crashedSim); [reflexivity |].
  eapply steps_cons; [apply (step_command MoveLeft) | apply steps_nil].
Defined.

End RunInvariants.

(* ================================================================== *)
(** ** Further properties: lanes, the car and the obstacles *)

Section LaneGeometry.

Lemma div_2 (e : Q) : div (Fin e) 2 = Fin (e * (1 # 2)).
Proof. reflexivity. Qed.

Lemma div_4 (e : Q) : div (Fin e) 4 = Fin (e * (1 # 4)).
Proof. reflexivity. Qed.

(** The x of an obstacle rectangle, for finite numbers. *)
Lemma obstacle_x (s : LaneRunnerSim) (o : Obstacle) (X W l ow : Q) :
  (1 <= lanes s)%Z ->
  o_lane o = Fin l -> o_width o = Fin ow ->
  let lw := W / inject_Z (lanes s) in
  getObstacleRect s o (Fin X) (Fin W) =
  {| rx := Fin (X + l * lw + lw * 0.2
                + (lw + - (2 * (lw * 0.2)) + - ow) * (1 # 2));
     ry := o_y o; rw := Fin ow; rh := o_height o |}.
Proof.
  intros HL Hl Hw lw. unfold getObstacleRect.
  rewrite (div_lanes W _ HL), Hl, Hw. fold lw.
  cbn [mul sub add neg]. now rewrite div_2.
Qed.

(** X13: for finite numbers and at least one lane, [getObstacleRect] puts
    the obstacle in the middle of its lane: the centre of the rectangle is
    the centre of the lane; and an obstacle no wider than 60% of a lane
    lies within the lane, a fifth of a lane away from either side at
    least; its y, width and height are those the obstacle stores. *)
Theorem obstacle_centred (s : LaneRunnerSim) (o : Obstacle) (X W l ow : Q) :
  (1 <= lanes s)%Z ->
  o_lane o = Fin l -> o_width o = Fin ow ->
  let lw := W / inject_Z (lanes s) in
  let r := getObstacleRect s o (Fin X) (Fin W) in
  ry r = o_y o /\ rw r = o_width o /\ rh r = o_height o /\
  exists x,
    rx r = Fin x /\
    x + ow / 2 == X + (l + (1 # 2)) * lw /\
    (0 <= lw -> ow <= 0.6 * lw ->
     X + l * lw + 0.2 * lw <= x /\ x + ow <= X + (l + 1) * lw - 0.2 * lw).
Proof.
  intros HL Hl Hw lw r. subst r. rewrite (obstacle_x s o X W l ow HL Hl Hw).
  fold lw. cbn [rx ry rw rh]. split; [reflexivity |]. split; [now rewrite Hw |].
  split; [reflexivity |].
  eexists. split; [reflexivity |]. split.
  - unfold Qdiv. change (/ 2) with (1 # 2). ring.
  - intros H0 H1. split; lra.
Qed.

Lemma obstacle_centred_witness :
  exists x,
    rx (getObstacleRect injectedSim injected 72 756) = Fin x /\
    x + 109 / 2 == 72 + (1 + (1 # 2)) * (756 / inject_Z 4).
Proof.
  assert (HL : (1 <= lanes injectedSim)%Z) by discriminate.
  destruct (obstacle_centred injectedSim injected 72 756 1 109 HL eq_refl eq_refl)
    as (_ & _ & _ & x & A & B & _).
  exists x. split; [exact A | exact B].
Defined.

(** The road and the car that [buildWorld] makes, for finite numbers. *)
Lemma buildWorld_car_x (sinPi : number -> number) (s : LaneRunnerSim)
  (wq p : Q) (h : number) :
  lane s = Fin p ->
  let X := inject_Z (Qfloor (wq * 0.08)) in
  let W := inject_Z (Qfloor (wq * 0.84)) in
  let lw := W * (1 # 4) in
  let world := buildWorld sinPi s (Fin wq) h in
  roadX world = Fin X /\ roadW world = Fin W /\
  rw (car world) = Fin (lw * 0.56) /\
  rx (car world) =
    Fin (X + p * lw + lw * 0.2
         + (lw + - (2 * (lw * 0.2)) + - (lw * 0.56)) * (1 # 2)).
Proof.
  intros Hp X W lw world. subst world.
  unfold buildWorld, roadForSize, getPlayerLane.
  cbn [road_roadX road_roadW roadX roadW car rx rw floor mul].
  rewrite Hp. fold X. fold W. rewrite div_4. fold lw.
  cbn [mul sub add neg]. rewrite div_2. repeat split.
Qed.

(** X14: on four lanes, in the world that [buildWorld] makes for a
    viewport whose road is at least 1 pixel wide, an obstacle no wider than
    60% of a lane (as every spawned obstacle is) and at least one lane away
    from the player does not overlap the car, wherever it is vertically
    and whatever the pose. *)
Theorem other_lane_never_hits (sinPi : number -> number) (s : LaneRunnerSim)
  (o : Obstacle) (h : number) (wq p l ow : Q) :
  lanes s = 4%Z ->
  0 < inject_Z (Qfloor (wq * 0.84)) ->
  lane s = Fin p -> o_lane o = Fin l ->
  l + 1 <= p \/ p + 1 <= l ->
  o_width o = Fin ow ->
  ow <= 0.6 * (inject_Z (Qfloor (wq * 0.84)) / 4) ->
  hits s (buildWorld sinPi s (Fin wq) h) o = false.
Proof.
  intros HL HW Hp Hl Hsep Hw How.
  destruct (buildWorld_car_x sinPi s wq p h Hp) as (EX & EW & Ecw & Ecx).
  assert (HL1 : (1 <= lanes s)%Z) by (rewrite HL; discriminate).
  unfold hits. rewrite EX, EW.
  rewrite (obstacle_x s o _ _ l ow HL1 Hl Hw). rewrite HL.
  unfold rectsOverlap. cbn [rx ry rw rh]. rewrite Ecx, Ecw. cbn [add].
  change (inject_Z 4) with 4 in *.
  unfold Qdiv in *. change (/ 4) with (1 # 4) in *.
  set (W := inject_Z (Qfloor (wq * 0.84))) in *.
  set (X := inject_Z (Qfloor (wq * 0.08))) in *.
  set (lw := W * (1 # 4)) in *.
  assert (Hlw : 0 < lw) by (unfold lw; lra).
  destruct Hsep as [Hs | Hs].
  - assert (A : lt (Fin (X + p * lw + lw * 0.2
                         + (lw + - (2 * (lw * 0.2)) + - (lw * 0.56)) * (1 # 2)))
                   (Fin (X + l * lw + lw * 0.2
                         + (lw + - (2 * (lw * 0.2)) + - ow) * (1 # 2) + ow))
                = false).
    { apply lt_Fin_false. nra. }
    rewrite A. reflexivity.
  - assert (B : gt (Fin (X + p * lw + lw * 0.2
                         + (lw + - (2 * (lw * 0.2)) + - (lw * 0.56)) * (1 # 2)
                         + lw * 0.56))
                   (Fin (X + l * lw + lw * 0.2
                         + (lw + - (2 * (lw * 0.2)) + - ow) * (1 # 2)))
                = false).
    { apply gt_Fin_false. nra. }
    rewrite B. now rewrite andb_false_r.
Qed.

Lemma other_lane_never_hits_witness :
  hits (new easy4) (buildWorld (fun _ => 0) (new easy4) 900 560)
       (mkObstacle ("obs"%string, Fin 0) 3 low 482 109 22) = false.
Proof.
  assert (HW : 0 < inject_Z (Qfloor (900 * 0.84))) by reflexivity.
  assert (Hsep : 3 + 1 <= 1 \/ 1 + 1 <= 3) by (right; discriminate).
  assert (How : 109 <= 0.6 * (inject_Z (Qfloor (900 * 0.84)) / 4))
    by (vm_compute; discriminate).
  exact (other_lane_never_hits (fun _ => 0) (new easy4)
           (mkObstacle ("obs"%string, Fin 0) 3 low 482 109 22) 560 900 1 3 109
           eq_refl HW eq_refl eq_refl Hsep eq_refl How).
Defined.

Lemma mul_NaN_l (a : number) : mul NaN a = NaN.
Proof. reflexivity. Qed.

Lemma buildWorld_car_NaN (sinPi : number -> number) (s : LaneRunnerSim)
  (w h : number) :
  lane s = NaN -> rx (car (buildWorld sinPi s w h)) = NaN.
Proof.
  intros H. unfold buildWorld, getPlayerLane. cbn [car rx]. rewrite H.
  rewrite mul_NaN_l, add_NaN_r. reflexivity.
Qed.

(** X15: while the lane index is NaN, [moveLeft] and [moveRight] leave it
    NaN, the car that [buildWorld] makes has NaN for its x, and a call to
    [update] with that world never sets crashed, whatever the obstacles. *)
Theorem nan_lane_never_crashes (sinPi : number -> number) (s : LaneRunnerSim) :
  lane s = NaN ->
  lane (moveLeft s) = NaN /\ lane (moveRight s) = NaN /\
  forall fuel dtSec w h g s' g',
    update fuel dtSec (buildWorld sinPi s w h) s g = Some (s', g') ->
    crashed s' = crashed s /\ lane s' = NaN.
Proof.
  intros H. split; [| split].
  - unfold moveLeft; fields. rewrite H. apply clamp_NaN.
  - unfold moveRight; fields. rewrite H. apply clamp_NaN.
  - intros fuel dtSec w h g s' g' U.
    destruct (crashed s) eqn:Hc.
    { rewrite update_ignored in U by auto. injection U as <- <-. auto. }
    destruct (negb (isFinite dtSec) || le dtSec 0) eqn:Hd.
    { rewrite update_ignored in U by auto. injection U as <- <-. auto. }
    pose proof (update_fields _ _ _ _ _ _ _ Hc Hd U) as F. cbv zeta in F.
    destruct F as (_ & _ & _ & _ & _ & _ & _ & _ & _ & Fl & _ & Hcrash & _).
    split; [| congruence].
    rewrite Hcrash. clear Hcrash.
    induction (obstacles s') as [| o os IH]; [reflexivity |].
    cbn [existsb]. rewrite IH, orb_false_r. unfold hits.
    apply overlap_NaN_left. left. now apply buildWorld_car_NaN.
Qed.

Lemma nan_lane_never_crashes_witness :
  lane (moveLeft (moveToLane NaN injectedSim)) = NaN /\
  option_map (fun r => crashed (fst r))
    (update 0 0.01
       (buildWorld (fun _ => 0) (moveToLane NaN injectedSim) 900 560)
       (moveToLane NaN injectedSim) halves) = Some false.
Proof.
  destruct (nan_lane_never_crashes (fun _ => 0) (moveToLane NaN injectedSim) eq_refl)
    as (A & _ & B).
  split; [exact A |].
  destruct (update 0 0.01 _ (moveToLane NaN injectedSim) halves)
    as [[s' g'] |] eqn:U; [| vm_compute in U; discriminate].
  cbn [option_map fst]. f_equal. exact (proj1 (B _ _ _ _ _ _ _ U)).
Defined.

(** X16: for a finite viewport the car that [buildWorld] makes is 56% of a
    lane wide and centred in the lane of the player; with the player in a
    lane from 0 to 3 it lies within the road; out of a jump its lower edge
    is 32 pixels above the bottom of the viewport, and it is 46 pixels high,
    or 28 while sliding; in a jump whose sine is between 0 and 1 its lower
    edge is 64 pixels higher at most. *)
Theorem car_placement (sinPi : number -> number) (s : LaneRunnerSim)
  (wq hq p : Q) :
  lane s = Fin p ->
  let X := inject_Z (Qfloor (wq * 0.08)) in
  let W := inject_Z (Qfloor (wq * 0.84)) in
  let world := buildWorld sinPi s (Fin wq) (Fin hq) in
  roadX world = Fin X /\ roadW world = Fin W /\
  (exists x cw,
      rx (car world) = Fin x /\ rw (car world) = Fin cw /\
      cw == 0.56 * (W / 4) /\
      x + cw / 2 == X + (p + (1 # 2)) * (W / 4) /\
      (0 <= W -> 0 <= p -> p <= 3 -> X <= x /\ x + cw <= X + W)) /\
  match pose s with
  | normal =>
      rh (car world) = 46 /\
      exists y, ry (car world) = Fin y /\ y + 46 == hq - 32
  | sliding =>
      rh (car world) = 28 /\
      exists y, ry (car world) = Fin y /\ y + 28 == hq - 32
  | jumping =>
      rh (car world) = 46 /\
      forall v, sinPi (min 1 (div (poseT s) 0.6)) = Fin v ->
        exists y, ry (car world) = Fin y /\ y + 46 == hq - 32 - v * 64
  end.
Proof.
  intros Hp X W world.
  destruct (buildWorld_car_x sinPi s wq p (Fin hq) Hp) as (EX & EW & Ecw & Ecx).
  fold X in EX, Ecx. fold W in EW, Ecw, Ecx. fold world in EX, EW, Ecw, Ecx.
  split; [exact EX |]. split; [exact EW |]. split.
  - eexists. eexists. split; [exact Ecx |]. split; [exact Ecw |].
    unfold Qdiv. change (/ 4) with (1 # 4). change (/ 2) with (1 # 2).
    split; [ring |]. split; [ring |].
    intros H0 H1 H2. split; nra.
  - subst world. unfold buildWorld, roadForSize, getPlayerPose.
    cbn [car ry rh fst snd road_roadBottom].
    destruct (pose s); cbn [pose_eqb add sub neg].
    + split; [reflexivity |]. eexists. split; [reflexivity |]. ring.
    + split; [reflexivity |]. intros v Hv. rewrite Hv. cbn [neg mul add].
      eexists. split; [reflexivity |]. ring.
    + split; [reflexivity |]. eexists. split; [reflexivity |]. ring.
Qed.

Lemma car_placement_witness :
  roadX world900 = Fin (inject_Z (Qfloor (900 * 0.08))) /\
  rh (car world900) = 46 /\
  exists y, ry (car world900) = Fin y /\ y + 46 == 560 - 32.
Proof.
  destruct (car_placement (fun _ => 0) (new easy4) 900 560 1 eq_refl)
    as (A & _ & _ & B).
  split; [exact A | exact B].
Defined.

End LaneGeometry.

(* ================================================================== *)
(** ** Further properties: the driver *)

Section Driver.

(** X17: for every finite size of the container and every device pixel
    ratio, NaN and the infinities included, the viewport of the
    [ResizeObserver] is a whole number of pixels at least 320 wide and 420
    high, with a ratio from 1 to 2; so the road of the world built for it
    is at least 268 pixels wide. *)
Theorem viewport_bounds (rectWidth rectHeight : Q) (devicePixelRatio : number) :
  let vp := resizeViewport (Fin rectWidth) (Fin rectHeight) devicePixelRatio in
  (exists kw : Z, eqb (vp_w vp) (Fin (inject_Z kw)) = true /\ (320 <= kw)%Z) /\
  (exists kh : Z, eqb (vp_h vp) (Fin (inject_Z kh)) = true /\ (420 <= kh)%Z) /\
  (exists r, vp_dpr vp = Fin r /\ 1 <= r /\ r <= 2) /\
  (exists W : Z,
      road_roadW (roadForSize (vp_w vp) (vp_h vp)) = Fin (inject_Z W) /\
      (268 <= W)%Z).
Proof.
  intros vp. subst vp. unfold resizeViewport. cbn [vp_w vp_h vp_dpr floor].
  assert (M : forall (b : Q) (k : Z), b = inject_Z (Qfloor b) ->
             exists z, max (Fin b) (Fin (inject_Z k)) = Fin z /\
                       z == inject_Z (Z.max (Qfloor b) k)).
  { intros b k Hb.
    destruct (max_Fin b (inject_Z k)) as (z & -> & Hz1 & Hz2 & Hz).
    exists z. split; [reflexivity |].
    rewrite Hb in Hz1, Hz.
    destruct (Z.max_spec (Qfloor b) k) as [[Hm ->] | [Hm ->]].
    - destruct Hz as [-> | ->]; [| reflexivity].
      rewrite <- Zle_Qle in Hz2. apply inject_Z_injective. f_equal. lia.
    - destruct Hz as [-> | ->]; [reflexivity |].
      rewrite <- Zle_Qle in Hz1. apply inject_Z_injective. f_equal. lia. }
  destruct (M 320 (Qfloor rectWidth) eq_refl) as (zw & Ew & Hw).
  destruct (M 420 (Qfloor rectHeight) eq_refl) as (zh & Eh & Hh).
  rewrite Ew, Eh.
  change (Qfloor 320) with 320%Z in Hw. change (Qfloor 420) with 420%Z in Hh.
  split; [| split; [| split]].
  - exists (Z.max 320 (Qfloor rectWidth)). split; [now apply eqb_Fin | lia].
  - exists (Z.max 420 (Qfloor rectHeight)). split; [now apply eqb_Fin | lia].
  - assert (D : forall x : number, x <> NaN ->
               exists r, max 1 (min x 2) = Fin r /\ 1 <= r /\ r <= 2).
    { intros x Hx.
      assert (H12 : 1 <= 2) by discriminate.
      destruct x as [q | | |]; [| | | congruence].
      - destruct (min_Fin q 2) as (m & -> & Hm1 & Hm2 & _).
        destruct (max_Fin 1 m) as (z & -> & Hz1 & Hz2 & [-> | ->]);
          eexists; split; try reflexivity; split; lra.
      - exists 2. split; [reflexivity |]. split; lra.
      - exists 1. split; [reflexivity |]. split; lra. }
    destruct (truthy devicePixelRatio) eqn:T.
    + apply D. intros ->. discriminate.
    + apply D. discriminate.
  - unfold roadForSize. cbn [road_roadW mul floor].
    exists (Qfloor (zw * 0.84)). split; [reflexivity |].
    change 268%Z with (Qfloor (inject_Z 268)). apply Qfloor_resp_le.
    rewrite Hw. assert (B : inject_Z 320 <= inject_Z (Z.max 320 (Qfloor rectWidth)))
      by (rewrite <- Zle_Qle; lia).
    change (inject_Z 320) with 320 in B. change (inject_Z 268) with 268. lra.
Qed.

Lemma moveToLane_int (s : LaneRunnerSim) (k : Z) :
  (1 <= lanes s)%Z -> (0 <= k)%Z -> (k <= lanes s - 1)%Z ->
  eqb (lane (moveToLane (Fin (inject_Z k)) s)) (Fin (inject_Z k)) = true.
Proof.
  intros HL Hk0 Hk1. destruct (lastLane_bounds s HL) as [T0 _].
  change (lane (moveToLane (Fin (inject_Z k)) s))
    with (clamp (Fin (inject_Z (Qfloor (inject_Z k + (1 # 2))))) 0 (lastLane s)).
  assert (F : Qfloor (inject_Z k + (1 # 2)) = k) by (apply Qfloor_unique; lra).
  rewrite F.
  destruct (clamp_Q (inject_Z k) 0 (lastLane s) T0) as (z & -> & _ & _ & _ & _ & M).
  apply eqb_Fin. apply M.
  - change 0 with (inject_Z 0). now rewrite <- Zle_Qle.
  - unfold lastLane. change (- (1)) with (inject_Z (-1)).
    rewrite <- inject_Z_plus, <- Zle_Qle. lia.
Qed.

(** X18: with a road at least 1 pixel wide, a press of the pointer at any
    finite position selects a whole lane from 0 to 3: the lane whose strip
    of the road holds the pointer when the pointer is on the road, lane 0
    when it is left of the road; on four lanes [onPointerDown] puts the
    player in that lane, and while paused or on the game-over overlay it
    leaves the engine as it is. *)
Theorem pointer_selects_lane (lf wq cx : Q) (h : number) (s : LaneRunnerSim) :
  let X := inject_Z (Qfloor (wq * 0.08)) in
  let W := inject_Z (Qfloor (wq * 0.84)) in
  let xr := cx - lf - X in
  1 <= W ->
  (exists k : Z,
      pointerLane (Fin lf) (Fin wq) h (Fin cx) = Fin (inject_Z k) /\
      (0 <= k)%Z /\ (k <= 3)%Z /\
      (0 <= xr -> xr <= W - 1 ->
       inject_Z k * (W / 4) <= xr /\ xr < (inject_Z k + 1) * (W / 4)) /\
      (xr <= 0 -> k = 0%Z) /\
      (lanes s = 4%Z ->
       eqb (lane (onPointerDown false false (Fin lf) (Fin wq) h (Fin cx) s))
           (Fin (inject_Z k)) = true)) /\
  (forall paused overlay,
      paused || overlay = true ->
      onPointerDown paused overlay (Fin lf) (Fin wq) h (Fin cx) s = s).
Proof.
  intros X W xr HW. split.
  - assert (HW1 : 0 <= W - 1) by lra.
    destruct (clamp_Q xr 0 (W - 1) HW1) as (cl & Ecl & C0 & C1 & Lo & _ & Mid).
    set (lw := W * (1 # 4)).
    assert (Hlw : 0 < lw) by (unfold lw; lra).
    assert (NZ : Qeq_bool lw 0 = false).
    { destruct (Qeq_bool lw 0) eqn:E; [| reflexivity].
      apply Qeq_bool_eq in E. lra. }
    assert (P : pointerLane (Fin lf) (Fin wq) h (Fin cx)
                = Fin (inject_Z (Qfloor (cl / lw)))).
    { unfold pointerLane, roadForSize.
      cbn [road_roadX road_roadW mul floor sub add neg].
      fold X. fold W. rewrite div_4. fold lw.
      change (max 0 (min (Fin (W + - (1))) (Fin (cx + - lf + - X))))
        with (clamp (Fin xr) 0 (W - 1)).
      rewrite Ecl. unfold div. now rewrite NZ. }
    assert (Q1 : cl / lw * lw == cl) by (field; lra).
    pose proof (Qfloor_le (cl / lw)) as F1.
    pose proof (Qlt_floor (cl / lw)) as F2.
    rewrite inject_Z_plus in F2. change (inject_Z 1) with 1 in F2.
    set (k := Qfloor (cl / lw)) in *.
    assert (B1 : inject_Z k * lw <= cl) by nra.
    assert (B2 : cl < (inject_Z k + 1) * lw) by nra.
    assert (K0 : (0 <= k)%Z).
    { assert (A : inject_Z (-1) < inject_Z k).
      { change (inject_Z (-1)) with (- (1)). nra. }
      rewrite <- Zlt_Qlt in A. lia. }
    assert (K3 : (k <= 3)%Z).
    { assert (A : inject_Z k < inject_Z 4).
      { change (inject_Z 4) with 4. unfold lw in *. nra. }
      rewrite <- Zlt_Qlt in A. lia. }
    exists k. split; [exact P |]. split; [exact K0 |]. split; [exact K3 |].
    unfold Qdiv. change (/ 4) with (1 # 4). fold lw.
    split; [| split].
    + intros H0 H1. rewrite <- (Mid H0 H1). split; assumption.
    + intros H0. rewrite (Lo H0) in B2.
      assert (A : inject_Z (-1) < inject_Z k).
      { change (inject_Z (-1)) with (- (1)). nra. }
      assert (A2 : inject_Z k < inject_Z 1).
      { change (inject_Z 1) with 1.
        destruct (Qlt_le_dec (inject_Z k) 1) as [L | L]; [exact L |].
        exfalso. rewrite (Lo H0) in B1. nra. }
      rewrite <- Zlt_Qlt in A2. lia.
    + intros HL. unfold onPointerDown. cbn [orb]. rewrite P.
      apply moveToLane_int; rewrite ?HL; lia.
  - intros paused overlay H. unfold onPointerDown. now rewrite H.
Qed.

Lemma pointer_selects_lane_witness :
  exists k : Z,
    pointerLane 10 900 560 600 = Fin (inject_Z k) /\
    (0 <= k)%Z /\ (k <= 3)%Z /\
    eqb (lane (onPointerDown false false 10 900 560 600 (new easy4)))
        (Fin (inject_Z k)) = true.
Proof.
  assert (HW : 1 <= inject_Z (Qfloor (900 * 0.84))) by (vm_compute; discriminate).
  destruct (pointer_selects_lane 10 900 600 560 (new easy4) HW)
    as ((k & A & B & C & _ & _ & D) & _).
  exists k. split; [exact A |]. split; [exact B |]. split; [exact C |].
  apply D. reflexivity.
Defined.

(** X19: a key press becomes a command on the engine only when it is not
    an auto-repeat, the game is neither paused nor over, and the key is an
    arrow: left and right move, up jumps, down slides, and no key moves to
    a given lane; in particular, on the screens paused and game over of
    [App] no key reaches the engine. *)
Theorem keys_are_gated (repeated : bool) (key : string)
  (paused overlay : bool) (c : Command) :
  onKeyDown repeated key paused overlay = KeyCommand c ->
  repeated = false /\ paused = false /\ overlay = false /\
  (key = "ArrowLeft"%string /\ c = MoveLeft \/
   key = "ArrowRight"%string /\ c = MoveRight \/
   key = "ArrowUp"%string /\ c = Jump \/
   key = "ArrowDown"%string /\ c = Slide) /\
  (forall a : AppState,
      paused = pausedProp a -> overlay = showGameOverOverlayProp a ->
      screen a <> screen_paused /\ screen a <> screen_gameover).
Proof.
  unfold onKeyDown. intros H.
  destruct repeated; [discriminate |].
  destruct (String.eqb key "p" || String.eqb key "P" || String.eqb key "Escape")%bool;
    [discriminate |].
  destruct paused; [discriminate |]. destruct overlay; [discriminate |].
  cbn [orb] in H.
  split; [reflexivity |]. split; [reflexivity |]. split; [reflexivity |]. split.
  - destruct (String.eqb key "ArrowLeft") eqn:E1.
    { apply String.eqb_eq in E1. injection H as <-. auto. }
    destruct (String.eqb key "ArrowRight") eqn:E2.
    { apply String.eqb_eq in E2. injection H as <-. auto. }
    destruct (String.eqb key "ArrowUp") eqn:E3.
    { apply String.eqb_eq in E3. injection H as <-. auto. }
    destruct (String.eqb key "ArrowDown") eqn:E4; [| discriminate].
    apply String.eqb_eq in E4. injection H as <-. auto 6.
  - intros a Hp Ho. unfold pausedProp in Hp. unfold showGameOverOverlayProp in Ho.
    destruct (screen a); split; discriminate.
Qed.

Lemma keys_are_gated_witness :
  onKeyDown false "ArrowUp" false false = KeyCommand Jump /\
  ("ArrowUp"%string = "ArrowLeft"%string /\ Jump = MoveLeft \/
   "ArrowUp"%string = "ArrowRight"%string /\ Jump = MoveRight \/
   "ArrowUp"%string = "ArrowUp"%string /\ Jump = Jump \/
   "ArrowUp"%string = "ArrowDown"%string /\ Jump = Slide).
Proof.
  assert (H : onKeyDown false "ArrowUp" false false = KeyCommand Jump)
    by reflexivity.
  split; [exact H |].
  exact (proj1 (proj2 (proj2 (proj2 (keys_are_gated _ _ _ _ _ H))))).
Defined.

(** X20: [onPauseToggle] leads to playing from paused and to paused from
    every other screen, the game-over screen included; it writes nothing
    but the screen; so two toggles in a row are the identity from playing
    and from paused, and end on playing from any screen. *)
Theorem pause_toggle (a : AppState) :
  (screen (onPauseToggle a) = screen_playing <-> screen a = screen_paused) /\
  (screen a <> screen_paused -> screen (onPauseToggle a) = screen_paused) /\
  runId (onPauseToggle a) = runId a /\
  app_difficultyId (onPauseToggle a) = app_difficultyId a /\
  carId (onPauseToggle a) = carId a /\
  lastRun (onPauseToggle a) = lastRun a /\
  (screen a = screen_playing \/ screen a = screen_paused ->
   onPauseToggle (onPauseToggle a) = a) /\
  (screen a <> screen_paused ->
   screen (onPauseToggle (onPauseToggle a)) = screen_playing).
Proof.
  destruct a as [sc r d c l]. unfold onPauseToggle.
  cbn [screen runId app_difficultyId carId lastRun].
  destruct sc; repeat split; try reflexivity; try discriminate;
    try (intros [H | H]; discriminate); try (intros H; now elim H).
Qed.

Lemma pause_toggle_witness :
  screen (onPauseToggle (mkApp screen_gameover 1 easy "sunset" None))
  = screen_paused /\
  onPauseToggle (onPauseToggle (mkApp screen_playing 1 easy "sunset" None))
  = mkApp screen_playing 1 easy "sunset" None.
Proof.
  destruct (pause_toggle (mkApp screen_gameover 1 easy "sunset" None))
    as (_ & A & _).
  destruct (pause_toggle (mkApp screen_playing 1 easy "sunset" None))
    as (_ & _ & _ & _ & _ & _ & B & _).
  split; [apply A; discriminate | apply B; left; reflexivity].
Defined.

Lemma preset_sound (d : DifficultyOption) (v i : Q) :
  initialSpeedPxPerSec d = Fin v -> 0 < v ->
  initialSpawnIntervalSec d = Fin i -> 0.25 <= i ->
  valid_config (canvasConfig d) /\
  wellformed (new (canvasConfig d)) /\
  floored (new (canvasConfig d)) /\
  in_range (new (canvasConfig d)) /\
  cooling (new (canvasConfig d)).
Proof.
  intros Hv Bv Hi Bi.
  assert (Bi0 : 0 < i) by lra.
  split; [| split; [| split; [| split]]].
  - split; [exists v; auto |]. split; [exists i; auto | discriminate].
  - apply (new_wellformed (canvasConfig d) v i); auto. lra.
  - exists i. auto.
  - exists 1. split; [reflexivity |]. split; [discriminate | reflexivity].
  - exists i. auto.
Qed.

(** X21: every difficulty identifier selects the preset of that
    identifier; the engine that the canvas makes for it, on four lanes,
    starts from finite positive speed and spawn interval, with the interval
    at or above the floor of 0.25 s, the player within the lanes and the
    spawn cooldown above zero. *)
Theorem presets_are_sound (i : DifficultyId) :
  exists d,
    selectedDifficulty i = Some d /\ id d = i /\
    valid_config (canvasConfig d) /\
    wellformed (new (canvasConfig d)) /\
    floored (new (canvasConfig d)) /\
    in_range (new (canvasConfig d)) /\
    cooling (new (canvasConfig d)).
Proof.
  destruct i; eexists; (split; [reflexivity |]); (split; [reflexivity |]).
  - apply (preset_sound _ 220 1.35); reflexivity || discriminate.
  - apply (preset_sound _ 290 1.05); reflexivity || discriminate.
  - apply (preset_sound _ 370 0.85); reflexivity || discriminate.
Qed.

End Driver.

(* ================================================================== *)
(** ** Further properties: what decides a collision *)

Section Collisions.

(** X22: on four lanes, in the world that [buildWorld] makes for a viewport
    whose road is at least 1 pixel wide, an obstacle of positive width in
    the lane of the player overlaps the car exactly when the two overlap
    vertically: the top of the car is above the bottom of the obstacle and
    the bottom of the car is below its top. *)
Theorem same_lane_hits (sinPi : number -> number) (s : LaneRunnerSim)
  (o : Obstacle) (h : number) (wq p l ow : Q) :
  lanes s = 4%Z ->
  0 < inject_Z (Qfloor (wq * 0.84)) ->
  lane s = Fin p -> o_lane o = Fin l -> l == p ->
  o_width o = Fin ow -> 0 < ow ->
  let world := buildWorld sinPi s (Fin wq) h in
  hits s world o =
  (lt (ry (car world)) (add (o_y o) (o_height o))
   && gt (add (ry (car world)) (rh (car world))) (o_y o))%bool.
Proof.
  intros HL HW Hp Hl Hlp Hw How world. subst world.
  destruct (buildWorld_car_x sinPi s wq p h Hp) as (EX & EW & Ecw & Ecx).
  assert (HL1 : (1 <= lanes s)%Z) by (rewrite HL; discriminate).
  unfold hits. rewrite EX, EW.
  rewrite (obstacle_x s o _ _ l ow HL1 Hl Hw). rewrite HL.
  unfold rectsOverlap. cbn [rx ry rw rh]. rewrite Ecx, Ecw. cbn [add].
  change (inject_Z 4) with 4 in *.
  unfold Qdiv in *. change (/ 4) with (1 # 4) in *.
  set (W := inject_Z (Qfloor (wq * 0.84))) in *.
  set (X := inject_Z (Qfloor (wq * 0.08))) in *.
  set (lw := W * (1 # 4)) in *.
  assert (Hlw : 0 < lw) by (unfold lw; lra).
  assert (Elp : l * lw == p * lw) by (rewrite Hlp; reflexivity).
  assert (A : lt (Fin (X + p * lw + lw * 0.2
                       + (lw + - (2 * (lw * 0.2)) + - (lw * 0.56)) * (1 # 2)))
                 (Fin (X + l * lw + lw * 0.2
                       + (lw + - (2 * (lw * 0.2)) + - ow) * (1 # 2) + ow))
              = true).
  { apply lt_Fin. lra. }
  assert (B : gt (Fin (X + p * lw + lw * 0.2
                       + (lw + - (2 * (lw * 0.2)) + - (lw * 0.56)) * (1 # 2)
                       + lw * 0.56))
                 (Fin (X + l * lw + lw * 0.2
                       + (lw + - (2 * (lw * 0.2)) + - ow) * (1 # 2)))
              = true).
  { apply gt_Fin. lra. }
  rewrite A, B. reflexivity.
Qed.

Lemma same_lane_hits_witness :
  hits injectedSim (buildWorld (fun _ => 0) injectedSim 900 560) injected
  = (lt (ry (car (buildWorld (fun _ => 0) injectedSim 900 560)))
        (add (o_y injected) (o_height injected))
     && gt (add (ry (car (buildWorld (fun _ => 0) injectedSim 900 560)))
               (rh (car (buildWorld (fun _ => 0) injectedSim 900 560))))
           (o_y injected))%bool.
Proof.
  assert (HW : 0 < inject_Z (Qfloor (900 * 0.84))) by reflexivity.
  assert (Hlp : 1 == 1) by reflexivity.
  assert (How : 0 < 109) by reflexivity.
  exact (same_lane_hits (fun _ => 0) injectedSim injected 560 900 1 1 109
           eq_refl HW eq_refl eq_refl Hlp eq_refl How).
Defined.

(** X23: the collision test reads neither the kind nor the identifier of
    an obstacle: with any other kind and identifier on every obstacle the
    collision loop ends the same way, and the move, the pruning and the
    collision test of [update] set crashed the same way when every obstacle
    is given one and the same kind. *)
Theorem collision_ignores_kind (s : LaneRunnerSim) (os : list Obstacle) :
  (forall (carRect : Rect) (X W : number)
          (f : Obstacle -> ObstacleKind) (i : Obstacle -> string * number),
      collides s carRect X W (map (fun o => relabelled (f o) (i o) o) os)
      = collides s carRect X W os) /\
  (forall (k : ObstacleKind) (dt : number) (world : World),
      crashed (updateObstacles dt world
                 (set_obstacles s (map (fun o => relabelled k (o_id o) o) os)))
      = crashed (updateObstacles dt world (set_obstacles s os))).
Proof.
  split.
  - intros carRect X W f i.
    induction os as [| o os' IH]; [reflexivity |].
    cbn [map collides].
    change (getObstacleRect s (relabelled (f o) (i o) o) X W)
      with (getObstacleRect s o X W).
    now rewrite IH.
  - intros k dt world.
    set (r := fun o => relabelled k (o_id o) o).
    destruct (updateObstacles_effect dt world (set_obstacles s (map r os)))
      as (O1 & C1 & _).
    destruct (updateObstacles_effect dt world (set_obstacles s os))
      as (O2 & C2 & _).
    rewrite C1, C2, O1, O2. cbn [obstacles crashed set_obstacles]. f_equal.
    change (moved (set_obstacles s (map r os)) dt) with (moved s dt).
    change (moved (set_obstacles s os) dt) with (moved s dt).
    clear O1 C1 O2 C2.
    assert (G : forall s1 s2 : LaneRunnerSim,
               lanes s1 = lanes s -> lanes s2 = lanes s ->
               existsb (hits s1 world)
                 (filter (kept world) (map (moved s dt) (map r os)))
               = existsb (hits s2 world)
                   (filter (kept world) (map (moved s dt) os))).
    { intros s1 s2 E1 E2.
      induction os as [| o os' IH]; [reflexivity |].
      cbn [map filter].
      change (kept world (moved s dt (r o))) with (kept world (moved s dt o)).
      destruct (kept world (moved s dt o)); [| exact IH].
      cbn [existsb]. rewrite IH.
      rewrite (hits_lanes s s1 world _ E1), (hits_lanes s s2 world _ E2).
      reflexivity. }
    apply G; reflexivity.
Qed.

(** X24: a frame longer than 50 ms counts for 50 ms: for every finite step
    of 0.05 s or more, [update] does exactly what it does for 0.05 s, on
    every state, generator and amount of fuel. *)
Theorem long_frames_are_cut (fuel : nat) (d : Q) (world : World)
  (s : LaneRunnerSim) (g : Rng) :
  0.05 <= d ->
  update fuel (Fin d) world s g = update fuel 0.05 world s g.
Proof.
  intros Hd. unfold update.
  destruct (crashed s); [reflexivity |].
  assert (Hd0 : 0 < d) by lra.
  rewrite (guard_Fin d Hd0).
  assert (H5 : 0 < 0.05) by reflexivity.
  rewrite (guard_Fin 0.05 H5).
  assert (E : clamp (Fin d) 0 0.05 = clamp 0.05 0 0.05).
  { unfold clamp. assert (M : min 0.05 (Fin d) = 0.05).
    { unfold min; cbn [compare]. destruct (0.05 ?= d) eqn:C; try reflexivity.
      apply Qgt_alt in C. lra. }
    now rewrite M. }
  now rewrite E.
Qed.

Lemma long_frames_are_cut_witness :
  update 0 1 world900 (jump (new easy4)) halves
  = update 0 0.05 world900 (jump (new easy4)) halves.
Proof.
  apply long_frames_are_cut. discriminate.
Defined.

End Collisions.
